(** * The EEVBlog 121GW telemetry decoder of pymeasure

    A shallow embedding of [pymeasure/instruments/eevblog/eevblog121GW.py]:
    the frame reassembler [notification_handler], the packet decoder
    [parse_121GW_data] and the blocking accessor [reading], together with
    the Python semantics they rest on (indexing that raises [IndexError],
    [int]/[float] arithmetic, attributes that may be unset).  The BLE
    connection ([connect], [close]) and the [print] calls are left out:
    the decoder neither reads nor writes anything of theirs. *)

From Stdlib Require Import ZArith List Bool Lia String.
From Stdlib Require Import Strings.Byte Floats.PrimFloat Uint63.
Import ListNotations.

Local Open Scope Z_scope.

(* Decimal float literals of the source denote the nearest binary64 number,
   as they do in Python. *)
Set Warnings "-inexact-float".

(** ** Python values and exceptions *)

Module Py.

Inductive exn : Type := IndexError | AttributeError.

(** A Python number is an [int] (unbounded) or a [float] (binary64). *)
Inductive num : Type :=
| Int (z : Z)
| Float (f : float).

(** [float(z)].  Every integer the decoder converts is below [2^53] in
    magnitude, where the conversion is exact (and [of_uint63] rounds to
    nearest-even like Python up to [2^63]). The integer [0] maps to
    [+0.0] whatever product produced it. *)
Definition float_of_int (z : Z) : float :=
  if z <? 0 then PrimFloat.opp (of_uint63 (Uint63.of_Z (- z)))
  else of_uint63 (Uint63.of_Z z).

(** [a * b]: the product of two ints is an int; otherwise the int operand
    is converted and the product is the binary64 one. *)
Definition mul (a b : num) : num :=
  match a, b with
  | Int x, Int y => Int (x * y)
  | Int x, Float g => Float (PrimFloat.mul (float_of_int x) g)
  | Float f, Int y => Float (PrimFloat.mul f (float_of_int y))
  | Float f, Float g => Float (PrimFloat.mul f g)
  end.

(** [10 ** e] for an int [e]: an int when [e >= 0]; for [e < 0] Python
    returns the float [pow(10.0, e)].  The C library's result on the
    exponents of the mode table ([-12 .. -1]) is the binary64 number
    nearest to [10^e], which is what the correctly rounded quotient
    [1.0 / 10^-e] is ([10^-e] is exact). *)
Definition pow10 (e : Z) : num :=
  if e <? 0 then Float (PrimFloat.div 1%float (float_of_int (10 ^ (- e))))
  else Int (10 ^ e).

(** [l[i]] for an int [i]: negative indices count from the end, anything
    outside the list raises [IndexError] (here: [None]). *)
Definition getitem {A : Type} (l : list A) (i : Z) : option A :=
  let n := Z.of_nat (List.length l) in
  let j := if i <? 0 then i + n else i in
  if (j <? 0) || (n <=? j) then None else nth_error l (Z.to_nat j).

End Py.

(** The value of a byte as the int Python reads from [bytes]/[bytearray]. *)
Definition byte_val (b : byte) : Z := Z.of_N (Byte.to_N b).

(** ** The instrument object *)

Module EEVBlog121GW.

Import Py.

(** A row of [MODE_RANGE_LIST]: unit, display label, exponents by range
    index.  Strings are kept as their UTF-8 bytes. *)
Definition mode_row : Type := (string * string * list Z)%type.

Definition MODE_RANGE_LIST : list mode_row :=
  [ ("V"%string,   "Voltage Low Z (V)"%string, [-1]);                    (*  0 *)
    ("V"%string,   "Voltage DC (V)"%string,    [-4;-3;-2;-1]);           (*  1 *)
    ("V"%string,   "Voltage AC (V)"%string,    [-4;-3;-2;-1]);           (*  2 *)
    ("mV"%string,  "Voltage DC (mV)"%string,   [-6;-5]);                 (*  3 *)
    ("mV"%string,  "Voltage AC (mV)"%string,   [-6;-5]);                 (*  4 *)
    ("°C"%string,  "Temp (°C)"%string,         [-1]);                    (*  5 *)
    ("Hz"%string,  "Frequency (Hz)"%string,    [-3;-2;-1;0;1]);          (*  6 *)
    ("s"%string,   "Period (s)"%string,        [-4;-3;-2]);              (*  7 *)
    ("%"%string,   "Duty (%)"%string,          [-1]);                    (*  8 *)
    ("Ω"%string,   "Resistance (Ω)"%string,    [-3;-2;-1;0;1;2;3]);      (*  9 *)
    ("Ω"%string,   "Continuity (Ω)"%string,    [-2]);                    (* 10 *)
    ("V"%string,   "Diode (V)"%string,         [-4;-3]);                 (* 11 *)
    ("F"%string,   "Capacitance (F)"%string,   [-12;-11;-10;-9;-8;-6]);  (* 12 *)
    ("uVA"%string, "Power AC (uVA)"%string,    [-8;-7;-7;-6]);           (* 13 *)
    ("mVA"%string, "Power AC (mVA)"%string,    [-6;-5;-5;-4]);           (* 14 *)
    ("VA"%string,  "Power AC (VA)"%string,     [-4;-3;-3;-2]);           (* 15 *)
    ("uA"%string,  "Current AC (uA)"%string,   [-9;-8]);                 (* 16 *)
    ("uA"%string,  "Current DC (uA)"%string,   [-9;-8]);                 (* 17 *)
    ("mA"%string,  "Current AC (mA)"%string,   [-7;-6]);                 (* 18 *)
    ("mA"%string,  "Current DC (mA)"%string,   [-7;-6]);                 (* 19 *)
    ("A"%string,   "Current AC (A)"%string,    [-5;-4;-3]);              (* 20 *)
    ("A"%string,   "Current DC (A)"%string,    [-5;-4;-3]);              (* 21 *)
    ("uVA"%string, "Power DC (uVA)"%string,    [-8;-7;-7;-6]);           (* 22 *)
    ("mVA"%string, "Power DC (mVA)"%string,    [-6;-5;-5;-4]);           (* 23 *)
    ("VA"%string,  "Power DC (VA)"%string,     [-4;-3;-3;-2]) ].         (* 24 *)

(** The attributes of [self] the decoder touches.  [__init__] never
    assigns [main_value_float], so it starts unset ([None]) and reading
    it then raises [AttributeError]. *)
Record Instrument : Type := mkInstrument {
  buffer : list byte;
  is_waiting_for_start : bool;
  is_new_value : bool;
  main_mode_short : string;
  main_mode_long : string;
  main_range : Z;
  main_value_float : option num
}.

(** The object as [__init__] leaves it. *)
Definition init : Instrument :=
  {| buffer := [];
     is_waiting_for_start := true;
     is_new_value := false;
     main_mode_short := EmptyString;
     main_mode_long := EmptyString;
     main_range := 0;
     main_value_float := None |}.

Definition set_buffer (v : list byte) (s : Instrument) : Instrument :=
  mkInstrument v (is_waiting_for_start s) (is_new_value s)
    (main_mode_short s) (main_mode_long s) (main_range s) (main_value_float s).
Definition set_is_waiting_for_start (v : bool) (s : Instrument) : Instrument :=
  mkInstrument (buffer s) v (is_new_value s)
    (main_mode_short s) (main_mode_long s) (main_range s) (main_value_float s).
Definition set_is_new_value (v : bool) (s : Instrument) : Instrument :=
  mkInstrument (buffer s) (is_waiting_for_start s) v
    (main_mode_short s) (main_mode_long s) (main_range s) (main_value_float s).
Definition set_main_mode_short (v : string) (s : Instrument) : Instrument :=
  mkInstrument (buffer s) (is_waiting_for_start s) (is_new_value s)
    v (main_mode_long s) (main_range s) (main_value_float s).
Definition set_main_mode_long (v : string) (s : Instrument) : Instrument :=
  mkInstrument (buffer s) (is_waiting_for_start s) (is_new_value s)
    (main_mode_short s) v (main_range s) (main_value_float s).
Definition set_main_range (v : Z) (s : Instrument) : Instrument :=
  mkInstrument (buffer s) (is_waiting_for_start s) (is_new_value s)
    (main_mode_short s) (main_mode_long s) v (main_value_float s).
Definition set_main_value_float (v : num) (s : Instrument) : Instrument :=
  mkInstrument (buffer s) (is_waiting_for_start s) (is_new_value s)
    (main_mode_short s) (main_mode_long s) (main_range s) (Some v).

(** ** Method bodies: state passing with exceptions

    A method body maps [self] to the object it leaves behind and either
    a result or the exception it raised; what was assigned before a
    raise stays assigned. *)
Inductive outcome (A : Type) : Type :=
| Ok (a : A) (self : Instrument)
| Err (e : exn) (self : Instrument).
Arguments Ok {A} a self.
Arguments Err {A} e self.

Definition M (A : Type) : Type := Instrument -> outcome A.

Definition ret {A : Type} (a : A) : M A := fun self => Ok a self.
Definition raise {A : Type} (e : exn) : M A := fun self => Err e self.
Definition bind {A B : Type} (c : M A) (k : A -> M B) : M B :=
  fun self =>
    match c self with
    | Ok a self' => k a self'
    | Err e self' => Err e self'
    end.
Definition attr {A : Type} (f : Instrument -> A) : M A := fun self => Ok (f self) self.
Definition assign (f : Instrument -> Instrument) : M unit := fun self => Ok tt (f self).

(** The object a call leaves behind, however it ended. *)
Definition after {A : Type} (o : outcome A) : Instrument :=
  match o with Ok _ self => self | Err _ self => self end.

Declare Scope py_scope.
Delimit Scope py_scope with py.
Notation "x <- c ;; k" := (bind c (fun x => k))
  (at level 61, c at next level, right associativity) : py_scope.
Notation "c ;; k" := (bind c (fun _ => k))
  (at level 61, right associativity) : py_scope.
Local Open Scope py_scope.

(** [seq[i]] inside a method body. *)
Definition item {A : Type} (l : list A) (i : Z) : M A :=
  match getitem l i with
  | Some a => ret a
  | None => raise IndexError
  end.

(** [for i in range(18): calculated_checksum ^= data[i]] *)
Fixpoint xor_loop (data : list byte) (range : list Z) (calculated_checksum : Z) : M Z :=
  match range with
  | [] => ret calculated_checksum
  | i :: range' =>
      d <- item data i ;;
      xor_loop data range' (Z.lxor calculated_checksum (byte_val d))
  end.

Definition range18 : list Z := map Z.of_nat (seq 0 18).

Definition parse_121GW_data (data : list byte) : M unit :=
  calculated_checksum <- xor_loop data range18 0 ;;
  d18 <- item data 18 ;;
  if negb (calculated_checksum =? byte_val d18) then ret tt
  else
    d5 <- item data 5 ;;
    let main_mode_idx := Z.land (byte_val d5) 0x1F in
    d6 <- item data 6 ;;
    let main_range_idx := Z.land (byte_val d6) 0x0F in
    row <- item MODE_RANGE_LIST main_mode_idx ;;
    assign (set_main_mode_short (fst (fst row))) ;;
    row <- item MODE_RANGE_LIST main_mode_idx ;;
    assign (set_main_mode_long (snd (fst row))) ;;
    row <- item MODE_RANGE_LIST main_mode_idx ;;
    r <- item (snd row) main_range_idx ;;
    assign (set_main_range r) ;;
    d6 <- item data 6 ;;
    let main_sign :=
      if Z.land (Z.shiftr (byte_val d6) 6) 0x01 =? 0 then 1 else -1 in
    d6 <- item data 6 ;;
    (if negb (Z.land (Z.shiftr (byte_val d6) 7) 0x01 =? 0) then
       assign (set_main_value_float (mul (Float 9.9e37%float) (Int main_sign)))
     else
       d5 <- item data 5 ;;
       d7 <- item data 7 ;;
       d8 <- item data 8 ;;
       let main_value :=
         Z.lor (Z.lor (Z.land (Z.shiftl (byte_val d5) 10) 0x030000)
                      (Z.shiftl (byte_val d7) 8))
               (byte_val d8) in
       main_range <- attr main_range ;;
       assign (set_main_value_float
                 (mul (mul (Int main_value) (Int main_sign)) (pow10 main_range)))) ;;
    sub_mode <- item data 9 ;;
    sub_range <- item data 10 ;;
    d11 <- item data 11 ;;
    d12 <- item data 12 ;;
    bar_status <- item data 13 ;;
    bar_value <- item data 14 ;;
    icon_status_1 <- item data 15 ;;
    icon_status_2 <- item data 16 ;;
    icon_status_3 <- item data 17 ;;
    assign (set_is_new_value true).

(** The body of the [for byte in data] loop of [notification_handler]. *)
Definition handle_byte (byte : byte) : M unit :=
  waiting <- attr is_waiting_for_start ;;
  if waiting then
    if byte_val byte =? 0xF2 then
      assign (set_is_waiting_for_start false) ;;
      assign (fun self => set_buffer (buffer self ++ [byte]) self)
    else ret tt
  else
    assign (fun self => set_buffer (buffer self ++ [byte]) self) ;;
    n <- attr (fun self => List.length (buffer self)) ;;
    if (18 <? n)%nat then
      (if (n =? 19)%nat then
         buf <- attr buffer ;;
         parse_121GW_data buf
       else ret tt) ;;
      assign (set_buffer []) ;;
      assign (set_is_waiting_for_start true)
    else ret tt.

Fixpoint notification_handler (data : list byte) : M unit :=
  match data with
  | [] => ret tt
  | byte :: data' => handle_byte byte ;; notification_handler data'
  end.

(** ** The blocking accessor [reading]

    [reading] spins on [is_new_value] while the BLE subsystem calls
    [notification_handler] from its own thread.  A [schedule] fixes what
    the reader meets: the value [time.time()] has on entry, then for each
    turn of the [while] loop the notifications handled since the flag was
    last looked at and the value [time.time()] has if that turn asks for
    it, and last the notifications handled between leaving the loop and
    reading [main_value_float].  Each notification is handled to the end
    between two looks of the reader; what it raises ends in the BLE
    thread and leaves [self] as it was at the raise. *)
Record poll : Type := mkPoll {
  arrivals : list (list byte);
  now : float
}.

Record schedule : Type := mkSchedule {
  entry_time : float;
  polls : list poll;
  late : list (list byte)
}.

Definition notify (self : Instrument) (chunk : list byte) : Instrument :=
  after (notification_handler chunk self).

Definition deliver (chunks : list (list byte)) (self : Instrument) : Instrument :=
  fold_left notify chunks self.

(** The [while True] loop; [None] when the schedule ends before the loop
    does. *)
Fixpoint wait_loop (end_ : float) (late : list (list byte)) (ps : list poll)
    (self : Instrument) : option (outcome num) :=
  match ps with
  | [] => None
  | p :: ps' =>
      let self := deliver (arrivals p) self in
      if is_new_value self then
        let self := deliver late self in
        Some (match main_value_float self with
              | Some v => Ok v self
              | None => Err AttributeError self
              end)
      else if PrimFloat.ltb end_ (now p) then Some (Ok (Float 0%float) self)
      else wait_loop end_ late ps' self
  end.

Definition reading (sch : schedule) (self : Instrument) : option (outcome num) :=
  let self := set_is_new_value false self in
  let end_ := PrimFloat.add (entry_time sch) (float_of_int 2) in
  wait_loop end_ (late sch) (polls sch) self.

End EEVBlog121GW.

(** ** Vocabulary of the wire format

    The words the properties are stated in: the fields of a 19-byte frame
    and the Reading an instrument currently holds.  None of these is used
    by the code above. *)

Module Frame.

Import Py EEVBlog121GW.

Definition byte_at (frame : list byte) (i : nat) : Z := byte_val (nth i frame x00).

(** XOR of all the bytes of a list. *)
Definition xor_all (l : list byte) : Z :=
  fold_left (fun acc b => Z.lxor acc (byte_val b)) l 0.

(** Byte 18 equals the XOR of bytes 0-17. *)
Definition checksum_ok (frame : list byte) : bool :=
  xor_all (firstn 18 frame) =? byte_at frame 18.

Definition mode_idx (frame : list byte) : Z := Z.land (byte_at frame 5) 0x1F.
Definition range_idx (frame : list byte) : Z := Z.land (byte_at frame 6) 0x0F.
Definition sign_bit (frame : list byte) : bool := Z.testbit (byte_at frame 6) 6.
Definition overflow_bit (frame : list byte) : bool := Z.testbit (byte_at frame 6) 7.
Definition sign (frame : list byte) : Z := if sign_bit frame then -1 else 1.

(** The mantissa as the code assembles it. *)
Definition mantissa (frame : list byte) : Z :=
  Z.lor (Z.lor (Z.land (Z.shiftl (byte_at frame 5) 10) 0x030000)
               (Z.shiftl (byte_at frame 7) 8))
        (byte_at frame 8).

(** Both indices hit the table: the mode index one of its 25 rows, the
    range index one of that row's exponents. *)
Definition indices_valid (frame : list byte) : bool :=
  (mode_idx frame <=? 24) &&
  match nth_error MODE_RANGE_LIST (Z.to_nat (mode_idx frame)) with
  | Some row => range_idx frame <? Z.of_nat (List.length (snd row))
  | None => false
  end.

(** The value a frame carries at exponent [r]. *)
Definition frame_value (frame : list byte) (r : Z) : num :=
  if overflow_bit frame then mul (Float 9.9e37%float) (Int (sign frame))
  else mul (mul (Int (mantissa frame)) (Int (sign frame))) (pow10 r).

(** What [parse_121GW_data] does to [self] on a 19-byte frame, case by
    case. *)
Definition decode (frame : list byte) (self : Instrument) : outcome unit :=
  if negb (checksum_ok frame) then Ok tt self
  else
    match getitem MODE_RANGE_LIST (mode_idx frame) with
    | None => Err IndexError self
    | Some row =>
        let self1 :=
          set_main_mode_long (snd (fst row)) (set_main_mode_short (fst (fst row)) self) in
        match getitem (snd row) (range_idx frame) with
        | None => Err IndexError self1
        | Some r =>
            Ok tt (set_is_new_value true
                     (set_main_value_float (frame_value frame r)
                        (set_main_range r self1)))
        end
    end.

(** The object after a frame is accepted. *)
Definition commit (row : mode_row) (r : Z) (frame : list byte) (self : Instrument)
  : Instrument :=
  set_is_new_value true
    (set_main_value_float (frame_value frame r)
       (set_main_range r
          (set_main_mode_long (snd (fst row))
             (set_main_mode_short (fst (fst row)) self)))).

(** [|n - c| <= tol] in binary64. *)
Definition close_to (n : num) (c tol : float) : bool :=
  let v := match n with Int z => float_of_int z | Float f => f end in
  PrimFloat.leb (PrimFloat.abs (PrimFloat.sub v c)) tol.

(** The object once the arrivals of all the polls [ps] are handled. *)
Definition arrived (ps : list poll) (self : Instrument) : Instrument :=
  fold_left (fun s p => deliver (arrivals p) s) ps self.

(** The end of the wait window: [time.time() + 2] on entry. *)
Definition deadline (sch : schedule) : float :=
  PrimFloat.add (entry_time sch) (float_of_int 2).

(** A set flag comes with a stored value. *)
Definition mailbox_ok (self : Instrument) : Prop :=
  is_new_value self = true -> main_value_float self <> None.

(** From [self] to [s] the flag was not cleared, the value not unset and
    the mailbox not broken. *)
Definition keeps (self s : Instrument) : Prop :=
  (is_new_value self = true -> is_new_value s = true) /\
  (main_value_float self <> None -> main_value_float s <> None) /\
  (mailbox_ok self -> mailbox_ok s).

(** The Reading held by an instrument. *)
Record Reading : Type := mkReading {
  unit_label : string;
  display_label : string;
  exponent : Z;
  value : option num
}.

Definition current_reading (self : Instrument) : Reading :=
  mkReading (main_mode_short self) (main_mode_long self) (main_range self)
    (main_value_float self).

(** The Reading a step of the reassembler publishes: the step that adds
    the nineteenth byte of a frame with a matching checksum and returns. *)
Definition published (byte : byte) (self : Instrument) : option Reading :=
  if negb (is_waiting_for_start self)
     && (List.length (buffer self) =? 18)%nat
     && checksum_ok (buffer self ++ [byte])
  then match handle_byte byte self with
       | Ok _ self' => Some (current_reading self')
       | Err _ _ => None
       end
  else None.

(** The Readings published while one call handles [data]. *)
Fixpoint decoded (data : list byte) (self : Instrument) : list Reading :=
  match data with
  | [] => []
  | b :: data' =>
      match handle_byte b self with
      | Ok _ self' =>
          match published b self with
          | Some r => r :: decoded data' self'
          | None => decoded data' self'
          end
      | Err _ _ => []
      end
  end.

(** The Readings published while the chunks are handled by one call each. *)
Fixpoint decoded_chunks (chunks : list (list byte)) (self : Instrument) : list Reading :=
  match chunks with
  | [] => []
  | c :: chunks' => decoded c self ++ decoded_chunks chunks' (notify self c)
  end.

End Frame.

(** ** Literal frames *)

Module Examples.

Import EEVBlog121GW.

(** Mode 1 "Voltage DC (V)", range 3, positive, no overflow, mantissa
    [0x3039 = 12345]. *)
Definition frame_12345 : list byte :=
  [xf2; x00; x00; x00; x00; x01; x03; x30; x39;
   x00; x00; x00; x00; x00; x00; x00; x00; x00; xf9].

(** The same frame with a wrong last byte. *)
Definition frame_corrupt : list byte :=
  [xf2; x00; x00; x00; x00; x01; x03; x30; x39;
   x00; x00; x00; x00; x00; x00; x00; x00; x00; x00].

(** Mode 1, range 3, positive, mantissa [1]. *)
Definition frame_1 : list byte :=
  [xf2; x00; x00; x00; x00; x01; x03; x00; x01;
   x00; x00; x00; x00; x00; x00; x00; x00; x00; xf1].

(** Mode index 31 (no such row), overflow bit set, matching checksum. *)
Definition frame_mode31 : list byte :=
  [xf2; x00; x00; x00; x00; x1f; x80; x00; x00;
   x00; x00; x00; x00; x00; x00; x00; x00; x00; x6d].

(** Mode 1 with range index 7 (the row has four exponents), matching
    checksum. *)
Definition frame_range7 : list byte :=
  [xf2; x00; x00; x00; x00; x01; x07; x30; x39;
   x00; x00; x00; x00; x00; x00; x00; x00; x00; xfd].

(** Mode 1, range 0, negative, overflow. *)
Definition frame_overflow : list byte :=
  [xf2; x00; x00; x00; x00; x01; xc0; x12; x34;
   x00; x00; x00; x00; x00; x00; x00; x00; x00; x15].

(** Mode 1, range 3, mantissa [0xf2f2]: the marker value twice in the
    payload. *)
Definition frame_marker_payload : list byte :=
  [xf2; x00; x00; x00; x00; x01; x03; xf2; xf2;
   x00; x00; x00; x00; x00; x00; x00; x00; x00; xf0].

(** Mode 6 "Frequency (Hz)", range 4 (exponent 1), negative, mantissa
    [0x3039 = 12345]. *)
Definition frame_hz : list byte :=
  [xf2; x00; x00; x00; x00; x06; x44; x30; x39;
   x00; x00; x00; x00; x00; x00; x00; x00; x00; xb9].

(** Mode 1, range 3, sign bit set, mantissa [0]. *)
Definition frame_minus_zero : list byte :=
  [xf2; x00; x00; x00; x00; x01; x43; x00; x00;
   x00; x00; x00; x00; x00; x00; x00; x00; x00; xb0].

(** The object after [frame_range7] has made a notification raise. *)
Definition stuck_range7 : Instrument :=
  set_main_mode_long "Voltage DC (V)"
    (set_main_mode_short "V"
       (set_buffer frame_range7 (set_is_waiting_for_start false init))).

(** Nothing arrives; the clock passes the deadline at the second turn. *)
Definition silence : schedule :=
  mkSchedule 100%float
    [mkPoll [] 101%float; mkPoll [] 102.5%float]
    [].

(** A frame arrives, in two pieces, before the second turn. *)
Definition one_arrival : schedule :=
  mkSchedule 100%float
    [mkPoll [] 100.5%float;
     mkPoll [firstn 7 frame_12345; skipn 7 frame_12345] 101%float]
    [].

End Examples.

(** ** Finding and connecting the meter

    [connect] talks to the BLE library; what the library answers is fixed
    by a [World]: the adapters it lists, what a scan of each finds, and for
    every peripheral whether its [connect()] raises and what
    [is_connected()] says afterwards.  The scan itself is taken to
    return; the [print] calls are left out. *)

Module BLE.

Record Peripheral : Type := mkPeripheral {
  identifier : string;
  address : string;
  connect_raises : bool;
  is_connected : bool
}.

Record Adapter : Type := mkAdapter {
  scan_get_results : list Peripheral
}.

Record World : Type := mkWorld {
  get_adapters : list Adapter
}.

Definition DEVICE_NAME : string := "121GW".

(** [sub in s] for two strings. *)
Fixpoint contains (sub s : string) : bool :=
  prefix sub s
  || match s with
     | EmptyString => false
     | String _ s' => contains sub s'
     end.

(** The argument of [connect]: [None] or a string. *)
Definition truthy (address : option string) : bool :=
  match address with
  | Some a => negb (String.eqb a EmptyString)
  | None => false
  end.

Definition is_empty_string (address : option string) : bool :=
  match address with
  | Some a => String.eqb a EmptyString
  | None => false
  end.

(** How the [for dev in devices] loop ends: with [device] bound to a
    peripheral or still [None], or with the [TypeError] of [None in str]. *)
Inductive search : Type :=
| Bound (device : option Peripheral)
| TypeError.

Fixpoint find_device (address : option string) (devices : list Peripheral) : search :=
  match devices with
  | [] => Bound None
  | dev :: devices' =>
      if truthy address || is_empty_string address then
        if contains DEVICE_NAME (identifier dev) then Bound (Some dev)
        else find_device address devices'
      else
        match address with
        | None => TypeError
        | Some a =>
            if contains a (BLE.address dev) then Bound (Some dev)
            else find_device address devices'
        end
  end.

(** [connect(address)]: the device returned ([None] for the failures the
    function reports by printing), or the exception that escapes. *)
Definition connect (w : World) (address : option string) : search :=
  match get_adapters w with
  | [] => Bound None
  | adapter :: _ =>
      match find_device address (scan_get_results adapter) with
      | TypeError => TypeError
      | Bound None => Bound None
      | Bound (Some device) =>
          if connect_raises device then Bound None
          else if negb (is_connected device) then Bound None
          else Bound (Some device)
      end
  end.

End BLE.

(** ** Vocabulary of byte streams *)

Module Stream.

Import Py EEVBlog121GW Frame.

(** The reassembler between two bytes: scanning with nothing kept, or
    holding at most nineteen bytes that start with the marker. *)
Definition reassembler_ok (self : Instrument) : Prop :=
  (is_waiting_for_start self = true -> buffer self = []) /\
  (is_waiting_for_start self = false -> exists rest, buffer self = xf2 :: rest) /\
  (List.length (buffer self) <= 19)%nat.

(** No byte of [bs] is the marker. *)
Definition marker_free (bs : list byte) : Prop :=
  Forall (fun b => byte_val b <> 0xF2) bs.

(** A frame a clean stream is made of: marker first, nineteen bytes,
    matching checksum, valid indices. *)
Definition acceptable (frame : list byte) : Prop :=
  (exists payload, frame = xf2 :: payload) /\
  List.length frame = 19%nat /\
  checksum_ok frame = true /\
  indices_valid frame = true.

(** The clock of a poll is past the deadline. *)
Definition expired (sch : schedule) (p : poll) : Prop :=
  PrimFloat.ltb (deadline sch) (now p) = true.

End Stream.

(** ** Literal scans *)

Module Bench.

Import BLE.

Definition keyboard : Peripheral :=
  mkPeripheral "Keyboard K380" "aa:bb:cc:00:11:22" false true.

(** A meter in range whose [connect()] raises. *)
Definition meter_busy : Peripheral :=
  mkPeripheral "121GW" "88:6b:0f:8f:82:34" true false.

(** A second meter, free to connect. *)
Definition meter_free : Peripheral :=
  mkPeripheral "121GW" "88:6b:0f:00:00:01" false true.

Definition one_meter : World :=
  mkWorld [mkAdapter [keyboard; meter_free]; mkAdapter []].

Definition two_meters : World :=
  mkWorld [mkAdapter [keyboard; meter_busy; meter_free]].

End Bench.

Import Py EEVBlog121GW Frame.
Local Open Scope py_scope.

(** * Properties *)

(** ** The decoder on a 19-byte frame *)

Arguments byte_val : simpl never.

Arguments getitem : simpl never.

(** [(x >> n) & 1] is bit [n] of [x]. *)
Lemma land1_shiftr_testbit (x n : Z) :
  (Z.land (Z.shiftr x n) 1 =? 0) = negb (Z.testbit x n).
Proof.
  rewrite Z.testbit_odd.
  change 1 with (Z.ones 1).
  rewrite Z.land_ones by lia.
  change (2 ^ 1) with 2.
  rewrite Zmod_odd.
  destruct (Z.odd (Z.shiftr x n)); reflexivity.
Qed.

(** Reads of a literal list at a literal index. *)
Ltac read_items :=
  repeat match goal with
  | |- context [item (?x :: ?l) ?i] =>
      let v := eval cbv in (getitem (x :: l) i) in
      match v with
      | Some ?a => change (item (x :: l) i) with (@ret _ a)
      end
  end.

Ltac explode_frame frame Hlen :=
  do 20 (destruct frame as [|? frame]; try discriminate Hlen).

Lemma parse_is_decode (frame : list byte) (self : Instrument) :
  List.length frame = 19%nat ->
  parse_121GW_data frame self = decode frame self.
Proof.
  intros Hlen.
  explode_frame frame Hlen.
  unfold parse_121GW_data, decode, checksum_ok, xor_all, mode_idx, range_idx,
    frame_value, mantissa, overflow_bit, sign, sign_bit, range18, byte_at.
  cbn [xor_loop map seq firstn fold_left nth Z.of_nat].
  read_items.
  cbv beta iota delta [bind ret attr assign].
  match goal with |- context [negb (?c =? ?d)] => destruct (c =? d) end;
    cbv beta iota delta [negb]; [|reflexivity].
  unfold item.
  destruct (getitem MODE_RANGE_LIST _) as [[[s l] exps]|];
    cbv beta iota delta [ret raise fst snd]; [|reflexivity].
  destruct (getitem exps _) as [r|]; cbv beta iota delta [ret raise]; [|reflexivity].
  rewrite !land1_shiftr_testbit.
  destruct (Z.testbit (byte_val b5) 7), (Z.testbit (byte_val b5) 6); reflexivity.
Qed.

(** ** Indexing and the ranges of the packed fields *)

Lemma byte_val_range (b : byte) : 0 <= byte_val b < 256.
Proof.
  unfold byte_val. pose proof (Byte.to_N_bounded b). lia.
Qed.

Lemma byte_at_range (frame : list byte) (i : nat) : 0 <= byte_at frame i < 256.
Proof. apply byte_val_range. Qed.

Lemma land_mask_range (x k : Z) : 0 <= k -> 0 <= Z.land x (Z.ones k) < 2 ^ k.
Proof.
  intros Hk. rewrite Z.land_ones by assumption.
  apply Z.mod_pos_bound. apply Z.pow_pos_nonneg; lia.
Qed.

Lemma mode_idx_range (frame : list byte) : 0 <= mode_idx frame < 32.
Proof. apply (land_mask_range _ 5). lia. Qed.

Lemma range_idx_range (frame : list byte) : 0 <= range_idx frame < 16.
Proof. apply (land_mask_range _ 4). lia. Qed.

Lemma getitem_nonneg {A : Type} (l : list A) (i : Z) :
  0 <= i -> getitem l i = nth_error l (Z.to_nat i).
Proof.
  intros Hi. unfold getitem.
  destruct (Z.ltb_spec i 0) as [?|_]; [lia|].
  destruct (Z.ltb_spec i 0) as [?|_]; [lia|].
  destruct (Z.leb_spec (Z.of_nat (List.length l)) i) as [Hle|Hlt]; cbn [orb].
  - symmetry. apply nth_error_None. lia.
  - reflexivity.
Qed.

Lemma getitem_outside {A : Type} (l : list A) (i : Z) :
  Z.of_nat (List.length l) <= i -> getitem l i = None.
Proof.
  intros Hi. rewrite getitem_nonneg by lia. apply nth_error_None. lia.
Qed.

Lemma getitem_inside {A : Type} (l : list A) (i : Z) :
  0 <= i < Z.of_nat (List.length l) -> exists a, getitem l i = Some a.
Proof.
  intros Hi. rewrite getitem_nonneg by lia.
  destruct (nth_error l (Z.to_nat i)) as [a|] eqn:E; [now exists a|].
  apply nth_error_None in E. lia.
Qed.

Lemma table_length : List.length MODE_RANGE_LIST = 25%nat.
Proof. reflexivity. Qed.

(** [indices_valid] says exactly that both lookups of the decoder succeed. *)
Lemma indices_valid_lookups (frame : list byte) :
  indices_valid frame = true ->
  exists row r,
    getitem MODE_RANGE_LIST (mode_idx frame) = Some row /\
    getitem (snd row) (range_idx frame) = Some r.
Proof.
  unfold indices_valid. intros H.
  apply andb_prop in H. destruct H as [_ H].
  pose proof (mode_idx_range frame) as Hm.
  pose proof (range_idx_range frame) as Hr.
  destruct (nth_error MODE_RANGE_LIST (Z.to_nat (mode_idx frame))) as [row|] eqn:E;
    [|discriminate].
  apply Z.ltb_lt in H.
  destruct (getitem_inside (snd row) (range_idx frame)) as [r Er]; [lia|].
  exists row, r. split; [|exact Er].
  rewrite getitem_nonneg by lia. exact E.
Qed.

Lemma indices_invalid_lookups (frame : list byte) :
  indices_valid frame = false ->
  getitem MODE_RANGE_LIST (mode_idx frame) = None \/
  exists row,
    getitem MODE_RANGE_LIST (mode_idx frame) = Some row /\
    getitem (snd row) (range_idx frame) = None.
Proof.
  unfold indices_valid. intros H.
  pose proof (mode_idx_range frame) as Hm.
  rewrite (getitem_nonneg MODE_RANGE_LIST) by lia.
  destruct (nth_error MODE_RANGE_LIST (Z.to_nat (mode_idx frame))) as [row|] eqn:E.
  - right. exists row. split; [reflexivity|].
    apply andb_false_iff in H. destruct H as [H|H].
    + apply Z.leb_gt in H.
      assert (Hn : nth_error MODE_RANGE_LIST (Z.to_nat (mode_idx frame)) = None).
      { apply nth_error_None. rewrite table_length. lia. }
      congruence.
    + apply Z.ltb_ge in H. apply getitem_outside. exact H.
  - now left.
Qed.

Lemma parse_bad_checksum (frame : list byte) (self : Instrument) :
  List.length frame = 19%nat ->
  checksum_ok frame = false ->
  parse_121GW_data frame self = Ok tt self.
Proof.
  intros Hlen Hc. rewrite parse_is_decode by assumption.
  unfold decode. now rewrite Hc.
Qed.

Lemma parse_accepts (frame : list byte) (self : Instrument) :
  List.length frame = 19%nat ->
  checksum_ok frame = true ->
  indices_valid frame = true ->
  exists row r,
    getitem MODE_RANGE_LIST (mode_idx frame) = Some row /\
    getitem (snd row) (range_idx frame) = Some r /\
    parse_121GW_data frame self = Ok tt (commit row r frame self).
Proof.
  intros Hlen Hc Hv. rewrite parse_is_decode by assumption.
  destruct (indices_valid_lookups frame Hv) as (row & r & Em & Er).
  exists row, r. repeat split; try assumption.
  unfold decode. now rewrite Hc, Em, Er.
Qed.

Lemma parse_raises (frame : list byte) (self : Instrument) :
  List.length frame = 19%nat ->
  checksum_ok frame = true ->
  indices_valid frame = false ->
  exists self',
    parse_121GW_data frame self = Err IndexError self' /\
    is_new_value self' = is_new_value self /\
    main_range self' = main_range self /\
    main_value_float self' = main_value_float self /\
    buffer self' = buffer self /\
    is_waiting_for_start self' = is_waiting_for_start self.
Proof.
  intros Hlen Hc Hv. rewrite parse_is_decode by assumption.
  unfold decode. rewrite Hc. cbn [negb].
  destruct (indices_invalid_lookups frame Hv) as [Em|(row & Em & Er)].
  - rewrite Em. exists self. repeat split.
  - rewrite Em, Er. eexists. split; [reflexivity|]. repeat split.
Qed.

Lemma indices_valid_false_iff (frame : list byte) :
  indices_valid frame = false <->
  (24 < mode_idx frame \/
   exists row,
     nth_error MODE_RANGE_LIST (Z.to_nat (mode_idx frame)) = Some row /\
     Z.of_nat (List.length (snd row)) <= range_idx frame).
Proof.
  unfold indices_valid.
  pose proof (mode_idx_range frame) as Hm.
  split.
  - intros H. apply andb_false_iff in H. destruct H as [H|H].
    + left. apply Z.leb_gt in H. lia.
    + destruct (nth_error MODE_RANGE_LIST (Z.to_nat (mode_idx frame))) as [row|] eqn:E.
      * right. exists row. split; [reflexivity|]. apply Z.ltb_ge in H. exact H.
      * left. apply nth_error_None in E. rewrite table_length in E. lia.
  - intros [H|(row & E & H)].
    + apply andb_false_iff. left. apply Z.leb_gt. lia.
    + rewrite E. apply andb_false_iff. right. apply Z.ltb_ge. exact H.
Qed.

(** ** Checksum gate *)

(** C1 (as amended): on a 19-byte frame whose last byte differs from the
    XOR of bytes 0-17 the decoder returns normally and leaves the whole
    object as it was; starting with the new-value flag clear, it returns
    with the flag set if and only if the checksum matches and both table
    indices are valid; and then the object is the committed one. *)
Theorem C1_checksum_gate (frame : list byte) (self : Instrument) :
  List.length frame = 19%nat ->
  (checksum_ok frame = false -> parse_121GW_data frame self = Ok tt self) /\
  (is_new_value self = false ->
   ((exists self', parse_121GW_data frame self = Ok tt self' /\ is_new_value self' = true)
    <-> checksum_ok frame = true /\ indices_valid frame = true)) /\
  (checksum_ok frame = true -> indices_valid frame = true ->
   exists row r,
     getitem MODE_RANGE_LIST (mode_idx frame) = Some row /\
     getitem (snd row) (range_idx frame) = Some r /\
     parse_121GW_data frame self = Ok tt (commit row r frame self)).
Proof.
  intros Hlen. split; [|split].
  - now apply parse_bad_checksum.
  - intros Hflag. split.
    + intros (self' & Hp & Hset).
      destruct (checksum_ok frame) eqn:Hc.
      * destruct (indices_valid frame) eqn:Hv; [now split|].
        destruct (parse_raises frame self Hlen Hc Hv) as (s & Hs & _).
        congruence.
      * rewrite (parse_bad_checksum frame self Hlen Hc) in Hp.
        injection Hp as <-. congruence.
    + intros [Hc Hv].
      destruct (parse_accepts frame self Hlen Hc Hv) as (row & r & _ & _ & Hp).
      exists (commit row r frame self). now split.
  - now apply parse_accepts.
Qed.

Lemma C1_checksum_gate_witness :
  parse_121GW_data Examples.frame_corrupt init = Ok tt init /\
  ((exists self', parse_121GW_data Examples.frame_12345 init = Ok tt self'
                  /\ is_new_value self' = true)
   <-> checksum_ok Examples.frame_12345 = true
       /\ indices_valid Examples.frame_12345 = true) /\
  exists row r,
    getitem MODE_RANGE_LIST (mode_idx Examples.frame_12345) = Some row /\
    getitem (snd row) (range_idx Examples.frame_12345) = Some r /\
    parse_121GW_data Examples.frame_12345 init
    = Ok tt (commit row r Examples.frame_12345 init).
Proof.
  split; [|split].
  - exact (proj1 (C1_checksum_gate Examples.frame_corrupt init eq_refl) eq_refl).
  - exact (proj1 (proj2 (C1_checksum_gate Examples.frame_12345 init eq_refl)) eq_refl).
  - exact (proj2 (proj2 (C1_checksum_gate Examples.frame_12345 init eq_refl))
             eq_refl eq_refl).
Defined.

(** C1 as stated fails: this frame's last byte is the XOR of the others,
    yet the decoder does not accept it; it raises [IndexError], updates
    nothing and leaves the flag clear. *)
Lemma C1_counterexample :
  List.length Examples.frame_mode31 = 19%nat /\
  checksum_ok Examples.frame_mode31 = true /\
  parse_121GW_data Examples.frame_mode31 init = Err IndexError init.
Proof. repeat split. Qed.

(** ** Out-of-range indices *)

(** C7: on a 19-byte frame with matching checksum, a mode index above 24
    or a range index not below the length of the mode's exponent list
    makes the decoder raise [IndexError] with the flag as it was (no
    silent return); with both indices in range it returns normally. *)
Theorem C7_index_failure (frame : list byte) (self : Instrument) :
  List.length frame = 19%nat ->
  checksum_ok frame = true ->
  ((24 < mode_idx frame \/
    exists row,
      nth_error MODE_RANGE_LIST (Z.to_nat (mode_idx frame)) = Some row /\
      Z.of_nat (List.length (snd row)) <= range_idx frame) ->
   exists self',
     parse_121GW_data frame self = Err IndexError self' /\
     is_new_value self' = is_new_value self) /\
  (mode_idx frame <= 24 ->
   (forall row,
      nth_error MODE_RANGE_LIST (Z.to_nat (mode_idx frame)) = Some row ->
      range_idx frame < Z.of_nat (List.length (snd row))) ->
   exists self', parse_121GW_data frame self = Ok tt self' /\ is_new_value self' = true).
Proof.
  intros Hlen Hc. split.
  - intros Hbad. apply indices_valid_false_iff in Hbad.
    destruct (parse_raises frame self Hlen Hc Hbad) as (s & Hs & Hf & _).
    exists s. now split.
  - intros Hm Hr.
    assert (Hv : indices_valid frame = true).
    { destruct (indices_valid frame) eqn:Hv; [reflexivity|].
      apply indices_valid_false_iff in Hv.
      destruct Hv as [Hv|(row & E & Hv)]; [lia|].
      specialize (Hr row E). lia. }
    destruct (parse_accepts frame self Hlen Hc Hv) as (row & r & _ & _ & Hp).
    exists (commit row r frame self). now split.
Qed.

Lemma C7_index_failure_witness :
  (exists self',
     parse_121GW_data Examples.frame_mode31 init = Err IndexError self' /\
     is_new_value self' = is_new_value init) /\
  (exists self',
     parse_121GW_data Examples.frame_range7 init = Err IndexError self' /\
     is_new_value self' = is_new_value init) /\
  (exists self',
     parse_121GW_data Examples.frame_12345 init = Ok tt self' /\
     is_new_value self' = true).
Proof.
  split; [|split].
  - apply (proj1 (C7_index_failure Examples.frame_mode31 init eq_refl eq_refl)).
    left. reflexivity.
  - apply (proj1 (C7_index_failure Examples.frame_range7 init eq_refl eq_refl)).
    right. exists ("V"%string, "Voltage DC (V)"%string, [-4;-3;-2;-1]).
    split; [reflexivity|]. cbv. discriminate.
  - apply (proj2 (C7_index_failure Examples.frame_12345 init eq_refl eq_refl)).
    + cbv. discriminate.
    + intros row E. vm_compute in E. injection E as <-. reflexivity.
Defined.

(** C10: with a matching checksum, a mode index that names a row and a
    range index outside that row's exponent list, the decoder raises after
    it has stored the row's unit and label: [main_mode_short] and
    [main_mode_long] are the new frame's, while [main_range],
    [main_value_float] and the flag are the old ones. *)
Theorem C10_partial_update (frame : list byte) (self : Instrument) (row : mode_row) :
  List.length frame = 19%nat ->
  checksum_ok frame = true ->
  nth_error MODE_RANGE_LIST (Z.to_nat (mode_idx frame)) = Some row ->
  Z.of_nat (List.length (snd row)) <= range_idx frame ->
  exists self',
    parse_121GW_data frame self = Err IndexError self' /\
    main_mode_short self' = fst (fst row) /\
    main_mode_long self' = snd (fst row) /\
    main_range self' = main_range self /\
    main_value_float self' = main_value_float self /\
    is_new_value self' = is_new_value self.
Proof.
  intros Hlen Hc Hrow Hr.
  pose proof (mode_idx_range frame) as Hm.
  rewrite parse_is_decode by assumption.
  unfold decode. rewrite Hc. cbn [negb].
  rewrite (getitem_nonneg MODE_RANGE_LIST) by lia.
  rewrite Hrow, (getitem_outside (snd row)) by assumption.
  eexists. split; [reflexivity|]. repeat split.
Qed.

Lemma C10_partial_update_witness :
  exists self',
    parse_121GW_data Examples.frame_range7
      (set_main_value_float (Float 0.5%float) (set_main_mode_short "A"%string init))
    = Err IndexError self' /\
    main_mode_short self' = "V"%string /\
    main_mode_long self' = "Voltage DC (V)"%string /\
    main_range self' = 0 /\
    main_value_float self' = Some (Float 0.5%float) /\
    is_new_value self' = false.
Proof.
  exact (C10_partial_update Examples.frame_range7
           (set_main_value_float (Float 0.5%float) (set_main_mode_short "A"%string init))
           ("V"%string, "Voltage DC (V)"%string, [-4;-3;-2;-1])
           eq_refl eq_refl eq_refl ltac:(cbv; discriminate)).
Defined.

(** ** The mantissa *)

Lemma small_bits_above (lo n k : Z) :
  0 <= lo < 2 ^ n -> n <= k -> Z.testbit lo k = false.
Proof.
  intros Hlo Hk.
  destruct (Z.eq_dec lo 0) as [->|Hne]; [apply Z.bits_0|].
  apply Z.bits_above_log2; [lia|].
  assert (Z.log2 lo < n) by (apply Z.log2_lt_pow2; lia). lia.
Qed.

(** OR-ing a number below [2^n] under a multiple of [2^n] adds them. *)
Lemma lor_shiftl_low (hi lo n : Z) :
  0 <= n -> 0 <= lo < 2 ^ n -> Z.lor (Z.shiftl hi n) lo = hi * 2 ^ n + lo.
Proof.
  intros Hn Hlo.
  assert (Hdisj : Z.land (Z.shiftl hi n) lo = 0).
  { apply Z.bits_inj'. intros k Hk.
    rewrite Z.land_spec, Z.bits_0.
    destruct (Z.lt_ge_cases k n) as [Hlt|Hge].
    - rewrite Z.shiftl_spec_low by assumption. reflexivity.
    - rewrite (small_bits_above lo n k) by assumption. apply andb_false_r. }
  rewrite <- Z.lxor_lor by assumption.
  rewrite <- Z.add_nocarry_lxor by assumption.
  now rewrite Z.shiftl_mul_pow2.
Qed.

(** [(x << 10) & 0x030000] keeps bits 7 and 6 of a byte, at 17 and 16. *)
Lemma top_bits_of_byte (b : byte) :
  Z.land (Z.shiftl (byte_val b) 10) 0x030000 = Z.shiftl (byte_val b / 64) 16.
Proof. destruct b; reflexivity. Qed.

Lemma mantissa_value (frame : list byte) :
  mantissa frame
  = (byte_at frame 5 / 64) * 65536 + byte_at frame 7 * 256 + byte_at frame 8.
Proof.
  unfold mantissa.
  pose proof (byte_at_range frame 5) as H5.
  pose proof (byte_at_range frame 7) as H7.
  pose proof (byte_at_range frame 8) as H8.
  unfold byte_at at 1. rewrite top_bits_of_byte. fold (byte_at frame 5).
  replace (Z.shiftl (byte_at frame 5 / 64) 16)
    with (Z.shiftl (Z.shiftl (byte_at frame 5 / 64) 8) 8)
    by (rewrite Z.shiftl_shiftl by lia; reflexivity).
  rewrite <- Z.shiftl_lor.
  rewrite (lor_shiftl_low (byte_at frame 5 / 64) (byte_at frame 7) 8) by lia.
  rewrite lor_shiftl_low by lia.
  change (2 ^ 8) with 256. lia.
Qed.

Lemma mantissa_range (frame : list byte) : 0 <= mantissa frame <= 262143.
Proof.
  rewrite mantissa_value.
  pose proof (byte_at_range frame 5) as H5.
  pose proof (byte_at_range frame 7) as H7.
  pose proof (byte_at_range frame 8) as H8.
  assert (0 <= byte_at frame 5 / 64 <= 3).
  { split; [apply Z.div_pos; lia|]. apply Z.lt_succ_r. apply Z.div_lt_upper_bound; lia. }
  lia.
Qed.

Lemma mantissa_top_bits (frame : list byte) (k : Z) :
  0 <= k ->
  Z.testbit (mantissa frame) (k + 16) = Z.testbit (byte_at frame 5) (k + 6).
Proof.
  intros Hk.
  pose proof (byte_at_range frame 7) as H7.
  pose proof (byte_at_range frame 8) as H8.
  rewrite <- (Z.div_pow2_bits (mantissa frame) 16 k) by lia.
  rewrite <- (Z.div_pow2_bits (byte_at frame 5) 6 k) by lia.
  f_equal. rewrite mantissa_value.
  change (2 ^ 16) with 65536. change (2 ^ 6) with 64.
  rewrite <- Z.add_assoc, Z.add_comm, Z.div_add by lia.
  rewrite Z.div_small by lia. reflexivity.
Qed.

(** C2 (as amended): a checksum-valid frame with the overflow bit clear
    and valid indices is decoded to
    [main_value_float = mainValue * sign * 10 ** exponent], the exponent
    taken from the mode table and the sign from byte 6 bit 6; the 18-bit
    [mainValue] has bits 7-6 of byte 5 as its bits 17-16 (that is what
    [(frame[5] << 10) & 0x030000] keeps) above byte 7 and byte 8, and lies
    in [0, 262143]. *)
Theorem C2_mantissa_value (frame : list byte) (self : Instrument) :
  List.length frame = 19%nat ->
  checksum_ok frame = true ->
  overflow_bit frame = false ->
  indices_valid frame = true ->
  exists row r self',
    nth_error MODE_RANGE_LIST (Z.to_nat (mode_idx frame)) = Some row /\
    nth_error (snd row) (Z.to_nat (range_idx frame)) = Some r /\
    parse_121GW_data frame self = Ok tt self' /\
    main_range self' = r /\
    main_value_float self'
    = Some (mul (mul (Int (mantissa frame)) (Int (sign frame))) (pow10 r)) /\
    sign frame = (if Z.testbit (byte_at frame 6) 6 then -1 else 1) /\
    mantissa frame
    = (byte_at frame 5 / 64) * 65536 + byte_at frame 7 * 256 + byte_at frame 8 /\
    Z.testbit (mantissa frame) 17 = Z.testbit (byte_at frame 5) 7 /\
    Z.testbit (mantissa frame) 16 = Z.testbit (byte_at frame 5) 6 /\
    0 <= mantissa frame <= 262143.
Proof.
  intros Hlen Hc Ho Hv.
  destruct (parse_accepts frame self Hlen Hc Hv) as (row & r & Em & Er & Hp).
  pose proof (mode_idx_range frame) as Hm.
  pose proof (range_idx_range frame) as Hr.
  rewrite getitem_nonneg in Em by lia.
  rewrite getitem_nonneg in Er by lia.
  exists row, r, (commit row r frame self).
  repeat match goal with |- _ /\ _ => split end; try assumption; try reflexivity.
  - cbn. unfold frame_value. now rewrite Ho.
  - apply mantissa_value.
  - apply (mantissa_top_bits frame 1). lia.
  - apply (mantissa_top_bits frame 0). lia.
  - apply mantissa_range.
  - apply mantissa_range.
Qed.

Lemma C2_mantissa_value_witness :
  exists row r self',
    nth_error MODE_RANGE_LIST (Z.to_nat (mode_idx Examples.frame_12345)) = Some row /\
    nth_error (snd row) (Z.to_nat (range_idx Examples.frame_12345)) = Some r /\
    parse_121GW_data Examples.frame_12345 init = Ok tt self' /\
    main_range self' = r /\
    main_value_float self'
    = Some (mul (mul (Int (mantissa Examples.frame_12345))
                     (Int (sign Examples.frame_12345))) (pow10 r)) /\
    sign Examples.frame_12345
    = (if Z.testbit (byte_at Examples.frame_12345 6) 6 then -1 else 1) /\
    mantissa Examples.frame_12345
    = (byte_at Examples.frame_12345 5 / 64) * 65536
      + byte_at Examples.frame_12345 7 * 256 + byte_at Examples.frame_12345 8 /\
    Z.testbit (mantissa Examples.frame_12345) 17
    = Z.testbit (byte_at Examples.frame_12345 5) 7 /\
    Z.testbit (mantissa Examples.frame_12345) 16
    = Z.testbit (byte_at Examples.frame_12345 5) 6 /\
    0 <= mantissa Examples.frame_12345 <= 262143.
Proof.
  exact (C2_mantissa_value Examples.frame_12345 init eq_refl eq_refl eq_refl eq_refl).
Defined.

(** C2 as stated fails: in this accepted frame byte 5 is [0x01], so its
    bits 1-0 are [01], yet [(frame[5] << 10) & 0x030000] is [0], bit 16 of
    the mantissa is clear and the decoded value is [12345 * 0.1], not
    [(65536 + 12345) * 0.1]. *)
Lemma C2_counterexample :
  checksum_ok Examples.frame_12345 = true /\
  overflow_bit Examples.frame_12345 = false /\
  indices_valid Examples.frame_12345 = true /\
  Z.testbit (byte_at Examples.frame_12345 5) 0 = true /\
  Z.land (Z.shiftl (byte_at Examples.frame_12345 5) 10) 0x030000 = 0 /\
  Z.testbit (mantissa Examples.frame_12345) 16 = false /\
  after (parse_121GW_data Examples.frame_12345 init)
  = commit ("V"%string, "Voltage DC (V)"%string, [-4;-3;-2;-1]) (-1)
      Examples.frame_12345 init /\
  main_value_float (after (parse_121GW_data Examples.frame_12345 init))
  = Some (Float 1234.5%float).
Proof. repeat split. Qed.

(** ** Overflow *)

Lemma overflow_value (frame : list byte) (r : Z) :
  overflow_bit frame = true ->
  frame_value frame r
  = Float (if sign_bit frame then (-9.9e37)%float else 9.9e37%float).
Proof.
  intros Ho. unfold frame_value, sign. rewrite Ho.
  destruct (sign_bit frame); reflexivity.
Qed.

(** C5 (as amended): a checksum-valid frame with byte 6 bit 7 set and
    valid mode and range indices is decoded to exactly [9.9e37], negated
    when byte 6 bit 6 is set; bytes 7 and 8 and the upper bits of byte 5
    play no part. *)
Theorem C5_overflow_value (frame : list byte) (self : Instrument) :
  List.length frame = 19%nat ->
  checksum_ok frame = true ->
  overflow_bit frame = true ->
  indices_valid frame = true ->
  exists self',
    parse_121GW_data frame self = Ok tt self' /\
    is_new_value self' = true /\
    main_value_float self'
    = Some (Float (if Z.testbit (byte_at frame 6) 6
                   then (-9.9e37)%float else 9.9e37%float)).
Proof.
  intros Hlen Hc Ho Hv.
  destruct (parse_accepts frame self Hlen Hc Hv) as (row & r & _ & _ & Hp).
  exists (commit row r frame self).
  split; [exact Hp|]. split; [reflexivity|].
  cbn. now rewrite overflow_value.
Qed.

Lemma C5_overflow_value_witness :
  exists self',
    parse_121GW_data Examples.frame_overflow init = Ok tt self' /\
    is_new_value self' = true /\
    main_value_float self'
    = Some (Float (if Z.testbit (byte_at Examples.frame_overflow 6) 6
                   then (-9.9e37)%float else 9.9e37%float)).
Proof.
  exact (C5_overflow_value Examples.frame_overflow init eq_refl eq_refl eq_refl eq_refl).
Defined.

(** C5 as stated fails: this frame has a matching checksum and byte 6
    bit 7 set, but its byte 5 names mode 31; the decoder raises and no
    value is stored. *)
Lemma C5_counterexample :
  List.length Examples.frame_mode31 = 19%nat /\
  checksum_ok Examples.frame_mode31 = true /\
  overflow_bit Examples.frame_mode31 = true /\
  parse_121GW_data Examples.frame_mode31 init = Err IndexError init /\
  main_value_float (after (parse_121GW_data Examples.frame_mode31 init)) = None.
Proof. repeat split. Qed.

(** ** The worked example of the spec *)

(** C9 (as amended): there is a literal 19-byte frame with valid checksum,
    mode index 1 ("Voltage DC (V)", exponents [-4,-3,-2,-1]), range index 3
    (exponent -1), sign bit 0, overflow bit 0 and [mainValue = 12345];
    decoding it yields [main_value_float = 1234.5] (exactly, hence within
    [1e-9]). *)
Theorem C9_worked_example :
  exists frame : list byte,
    List.length frame = 19%nat /\
    checksum_ok frame = true /\
    mode_idx frame = 1 /\
    nth_error MODE_RANGE_LIST 1
    = Some ("V"%string, "Voltage DC (V)"%string, [-4;-3;-2;-1]) /\
    range_idx frame = 3 /\
    nth_error [-4;-3;-2;-1] 3 = Some (-1) /\
    sign_bit frame = false /\
    overflow_bit frame = false /\
    mantissa frame = 12345 /\
    forall self, exists self',
      parse_121GW_data frame self = Ok tt self' /\
      main_value_float self' = Some (Float 1234.5%float) /\
      close_to (Float 1234.5%float) 1234.5%float 1e-9%float = true.
Proof.
  exists Examples.frame_12345.
  repeat match goal with |- _ /\ _ => split end; try reflexivity.
  intros self.
  exists (commit ("V"%string, "Voltage DC (V)"%string, [-4;-3;-2;-1]) (-1)
            Examples.frame_12345 self).
  split; [|split; reflexivity].
  rewrite parse_is_decode by reflexivity. reflexivity.
Qed.

(** C9 as stated fails: whatever frame has those fields, the decoder
    stores [12345 * 10 ** -1], which is not within [1e-9] of [1.2345]. *)
Lemma C9_counterexample :
  ~ exists (frame : list byte) (self self' : Instrument) (v : num),
      List.length frame = 19%nat /\
      checksum_ok frame = true /\
      mode_idx frame = 1 /\
      range_idx frame = 3 /\
      sign_bit frame = false /\
      overflow_bit frame = false /\
      mantissa frame = 12345 /\
      parse_121GW_data frame self = Ok tt self' /\
      main_value_float self' = Some v /\
      close_to v 1.2345%float 1e-9%float = true.
Proof.
  intros (frame & self & self' & v & Hlen & Hc & Hm & Hr & Hs & Ho & Hman & Hp & Hv & Hclose).
  rewrite parse_is_decode in Hp by assumption.
  unfold decode in Hp. rewrite Hc, Hm, Hr in Hp.
  change (getitem MODE_RANGE_LIST 1)
    with (Some ("V"%string, "Voltage DC (V)"%string, [-4;-3;-2;-1])) in Hp.
  cbn [negb snd fst] in Hp.
  change (getitem [-4;-3;-2;-1] 3) with (Some (-1)) in Hp.
  unfold frame_value, sign in Hp. rewrite Ho, Hs, Hman in Hp.
  injection Hp as <-. cbn in Hv. injection Hv as <-.
  vm_compute in Hclose. discriminate.
Qed.

(** ** The reassembler, byte by byte *)

Lemma handler_app (xs ys : list byte) (self : Instrument) :
  notification_handler (xs ++ ys) self
  = (notification_handler xs ;; notification_handler ys) self.
Proof.
  revert self. induction xs as [|b xs IH]; intros self.
  - reflexivity.
  - cbn [app notification_handler]. unfold bind.
    destruct (handle_byte b self) as [[] s1|e s1]; [|reflexivity].
    rewrite IH. reflexivity.
Qed.

Lemma step_scanning (b : byte) (self : Instrument) :
  is_waiting_for_start self = true ->
  handle_byte b self
  = Ok tt (if byte_val b =? 0xF2
           then set_buffer (buffer self ++ [b]) (set_is_waiting_for_start false self)
           else self).
Proof.
  intros Hw. unfold handle_byte, bind, attr. rewrite Hw.
  destruct (byte_val b =? 0xF2); reflexivity.
Qed.

Lemma step_accumulating (b : byte) (self : Instrument) :
  is_waiting_for_start self = false ->
  (List.length (buffer self) < 18)%nat ->
  handle_byte b self = Ok tt (set_buffer (buffer self ++ [b]) self).
Proof.
  intros Hw Hn. unfold handle_byte, bind, attr, assign. rewrite Hw.
  cbn [buffer set_buffer]. rewrite length_app. cbn [List.length].
  destruct (Nat.ltb_spec 18 (List.length (buffer self) + 1)) as [H|H]; [lia|].
  reflexivity.
Qed.

Lemma step_completing (b : byte) (self : Instrument) :
  is_waiting_for_start self = false ->
  List.length (buffer self) = 18%nat ->
  handle_byte b self
  = match parse_121GW_data (buffer self ++ [b]) (set_buffer (buffer self ++ [b]) self) with
    | Ok _ s => Ok tt (set_is_waiting_for_start true (set_buffer [] s))
    | Err e s => Err e s
    end.
Proof.
  intros Hw Hn. unfold handle_byte, bind, attr, assign. rewrite Hw.
  cbn [buffer set_buffer]. rewrite length_app, Hn.
  cbn [List.length Nat.add Nat.ltb Nat.leb Nat.eqb].
  destruct (parse_121GW_data _ _); reflexivity.
Qed.

Lemma step_overlong (b : byte) (self : Instrument) :
  is_waiting_for_start self = false ->
  (18 < List.length (buffer self))%nat ->
  handle_byte b self = Ok tt (set_is_waiting_for_start true (set_buffer [] self)).
Proof.
  intros Hw Hn. unfold handle_byte, bind, attr, assign, ret. rewrite Hw.
  cbn [buffer set_buffer]. rewrite length_app. cbn [List.length].
  destruct (Nat.ltb_spec 18 (List.length (buffer self) + 1)) as [_|H]; [|lia].
  destruct (Nat.eqb_spec (List.length (buffer self) + 1) 19) as [H|_]; [lia|].
  reflexivity.
Qed.

Lemma accumulate_many (bs : list byte) (self : Instrument) :
  is_waiting_for_start self = false ->
  (List.length (buffer self) + List.length bs <= 18)%nat ->
  notification_handler bs self = Ok tt (set_buffer (buffer self ++ bs) self).
Proof.
  revert self. induction bs as [|b bs IH]; intros self Hw Hn.
  - rewrite app_nil_r. destruct self; reflexivity.
  - cbn [notification_handler]. unfold bind.
    cbn [List.length] in Hn.
    rewrite step_accumulating by (assumption || lia).
    rewrite IH.
    + cbn [buffer set_buffer]. rewrite <- app_assoc. reflexivity.
    + exact Hw.
    + cbn [buffer set_buffer]. rewrite length_app. cbn [List.length]. lia.
Qed.

(** A marker, seventeen bytes and a nineteenth byte, met while scanning
    with an empty buffer: the decoder is called on exactly these. *)
Lemma handler_whole_frame (body : list byte) (last : byte) (self : Instrument) :
  is_waiting_for_start self = true ->
  buffer self = [] ->
  List.length body = 17%nat ->
  notification_handler (xf2 :: body ++ [last]) self
  = match parse_121GW_data (xf2 :: body ++ [last])
            (set_buffer (xf2 :: body ++ [last]) (set_is_waiting_for_start false self)) with
    | Ok _ s => Ok tt (set_is_waiting_for_start true (set_buffer [] s))
    | Err e s => Err e s
    end.
Proof.
  intros Hw Hb Hn.
  cbn [notification_handler]. unfold bind at 1.
  rewrite step_scanning by assumption. change (byte_val xf2 =? 0xF2) with true.
  cbv beta iota. rewrite Hb. cbn [app].
  rewrite handler_app. unfold bind at 1.
  rewrite accumulate_many by (cbn; lia).
  cbn [buffer set_buffer notification_handler]. unfold bind at 1.
  rewrite step_completing by (cbn; rewrite ?length_app; cbn; lia).
  cbn [buffer set_buffer app].
  destruct (parse_121GW_data _ _) as [[] s|e s]; reflexivity.
Qed.

Lemma split_last_byte (payload : list byte) :
  List.length payload = 18%nat ->
  exists body last, payload = body ++ [last] /\ List.length body = 17%nat.
Proof.
  intros Hn.
  assert (Hne : payload <> []) by (intros ->; discriminate Hn).
  exists (removelast payload), (last payload x00).
  pose proof (app_removelast_last x00 Hne) as E.
  split; [exact E|].
  rewrite E, length_app in Hn. cbn [List.length] in Hn. lia.
Qed.

(** C8: a marker followed by any eighteen bytes, met while scanning with
    an empty buffer, is handed to the decoder as that very frame, whether
    or not the eighteen bytes contain [0xF2]; with matching checksum and
    valid indices the handler returns with the frame committed, the buffer
    empty and scanning again.  While accumulating, a [0xF2] byte is
    appended like any other. *)
Theorem C8_marker_in_payload (payload : list byte) (self : Instrument) :
  List.length payload = 18%nat ->
  is_waiting_for_start self = true ->
  buffer self = [] ->
  notification_handler (xf2 :: payload) self
  = match parse_121GW_data (xf2 :: payload)
            (set_buffer (xf2 :: payload) (set_is_waiting_for_start false self)) with
    | Ok _ s => Ok tt (set_is_waiting_for_start true (set_buffer [] s))
    | Err e s => Err e s
    end /\
  (checksum_ok (xf2 :: payload) = true ->
   indices_valid (xf2 :: payload) = true ->
   exists row r,
     nth_error MODE_RANGE_LIST (Z.to_nat (mode_idx (xf2 :: payload))) = Some row /\
     nth_error (snd row) (Z.to_nat (range_idx (xf2 :: payload))) = Some r /\
     notification_handler (xf2 :: payload) self
     = Ok tt (commit row r (xf2 :: payload) self)) /\
  (forall acc : Instrument,
     is_waiting_for_start acc = false ->
     (List.length (buffer acc) < 18)%nat ->
     handle_byte xf2 acc = Ok tt (set_buffer (buffer acc ++ [xf2]) acc)).
Proof.
  intros Hn Hw Hb.
  destruct (split_last_byte payload Hn) as (body & last & -> & Hbody).
  pose proof (handler_whole_frame body last self Hw Hb Hbody) as Hframe.
  split; [exact Hframe|]. split.
  - intros Hc Hv. rewrite Hframe.
    set (frame := xf2 :: body ++ [last]) in *.
    assert (Hlen : List.length frame = 19%nat)
      by (unfold frame; cbn [List.length]; rewrite length_app, Hbody; reflexivity).
    destruct (parse_accepts frame
                (set_buffer frame (set_is_waiting_for_start false self)) Hlen Hc Hv)
      as (row & r & Em & Er & Hp).
    pose proof (mode_idx_range frame) as Hm.
    pose proof (range_idx_range frame) as Hr.
    rewrite getitem_nonneg in Em by lia.
    rewrite getitem_nonneg in Er by lia.
    exists row, r. split; [exact Em|]. split; [exact Er|].
    rewrite Hp. destruct self; cbn in Hw, Hb; subst. reflexivity.
  - intros acc Hacc Hlt. now apply step_accumulating.
Qed.

Lemma C8_marker_in_payload_witness :
  In xf2 (tl Examples.frame_marker_payload) /\
  notification_handler Examples.frame_marker_payload init
  = Ok tt (commit ("V"%string, "Voltage DC (V)"%string, [-4;-3;-2;-1]) (-1)
             Examples.frame_marker_payload init) /\
  main_value_float (after (notification_handler Examples.frame_marker_payload init))
  = Some (Float 6219.4000000000005%float).
Proof.
  split; [cbn; tauto|].
  destruct (C8_marker_in_payload (tl Examples.frame_marker_payload) init
              eq_refl eq_refl eq_refl) as (_ & H & _).
  destruct (H eq_refl eq_refl) as (row & r & Em & Er & Hp).
  injection Em as <-. injection Er as <-.
  split; [exact Hp|reflexivity].
Defined.

(** ** Fragmentation *)

Lemma decoded_app (xs ys : list byte) (self s1 : Instrument) :
  notification_handler xs self = Ok tt s1 ->
  decoded (xs ++ ys) self = decoded xs self ++ decoded ys s1.
Proof.
  revert self. induction xs as [|b xs IH]; intros self H.
  - injection H as <-. reflexivity.
  - cbn [notification_handler] in H. unfold bind in H.
    cbn [app decoded].
    destruct (handle_byte b self) as [[] s|e s]; [|discriminate H].
    rewrite (IH s H).
    destruct (published b self); reflexivity.
Qed.

(** C3 (as amended): whenever the single call on the whole byte sequence
    returns normally (no completed frame makes the decoder raise), handling
    the sequence chunk by chunk, however it is split, leaves the object in
    the state the single call leaves it in and publishes the same Readings
    in the same order. *)
Theorem C3_fragmentation (chunks : list (list byte)) (self self' : Instrument) :
  notification_handler (List.concat chunks) self = Ok tt self' ->
  deliver chunks self = self' /\
  decoded_chunks chunks self = decoded (List.concat chunks) self.
Proof.
  revert self. induction chunks as [|c chunks IH]; intros self H.
  - injection H as <-. split; reflexivity.
  - cbn [List.concat] in *. rewrite handler_app in H. unfold bind in H.
    destruct (notification_handler c self) as [[] s1|e s1] eqn:E; [|discriminate H].
    destruct (IH s1 H) as [Hst Hdec].
    assert (Hn : notify self c = s1) by (unfold notify; now rewrite E).
    split.
    + unfold deliver. cbn [fold_left]. rewrite Hn. exact Hst.
    + cbn [decoded_chunks]. rewrite Hn, Hdec. symmetry. now apply decoded_app.
Qed.

Lemma C3_fragmentation_witness :
  deliver (map (fun b => [b]) Examples.frame_12345) init
  = commit ("V"%string, "Voltage DC (V)"%string, [-4;-3;-2;-1]) (-1)
      Examples.frame_12345 init /\
  decoded_chunks (map (fun b => [b]) Examples.frame_12345) init
  = decoded (List.concat (map (fun b => [b]) Examples.frame_12345)) init.
Proof.
  exact (C3_fragmentation (map (fun b => [b]) Examples.frame_12345) init
           (commit ("V"%string, "Voltage DC (V)"%string, [-4;-3;-2;-1]) (-1)
              Examples.frame_12345 init) eq_refl).
Defined.

(** C3 as stated fails: the first nineteen bytes make the decoder raise,
    which ends the single call there; delivered as two chunks, the second
    call still runs, flushes the buffer and decodes the frame that
    follows. *)
Lemma C3_counterexample :
  buffer (after (notification_handler
                   (List.concat [Examples.frame_mode31; x00 :: Examples.frame_12345]) init))
  = Examples.frame_mode31 /\
  buffer (deliver [Examples.frame_mode31; x00 :: Examples.frame_12345] init) = [] /\
  decoded (List.concat [Examples.frame_mode31; x00 :: Examples.frame_12345]) init = [] /\
  decoded_chunks [Examples.frame_mode31; x00 :: Examples.frame_12345] init
  = [mkReading "V"%string "Voltage DC (V)"%string (-1) (Some (Float 1234.5%float))].
Proof. repeat split. Qed.

(** ** What notifications never undo *)

Lemma keeps_refl (self : Instrument) : keeps self self.
Proof. unfold keeps. tauto. Qed.

Lemma keeps_trans (a b c : Instrument) : keeps a b -> keeps b c -> keeps a c.
Proof. unfold keeps. tauto. Qed.

Lemma keeps_decode (frame : list byte) (self : Instrument) :
  keeps self (after (decode frame self)).
Proof.
  unfold decode.
  destruct (negb (checksum_ok frame)); [apply keeps_refl|].
  destruct (getitem MODE_RANGE_LIST (mode_idx frame)) as [row|]; [|apply keeps_refl].
  destruct (getitem (snd row) (range_idx frame)) as [r|].
  - unfold keeps, mailbox_ok. cbn. repeat split; intros; discriminate.
  - unfold keeps, mailbox_ok. cbn. tauto.
Qed.

Lemma keeps_handle_byte (b : byte) (self : Instrument) :
  keeps self (after (handle_byte b self)).
Proof.
  destruct (is_waiting_for_start self) eqn:Hw.
  - rewrite step_scanning by assumption.
    destruct (byte_val b =? 0xF2); unfold keeps, mailbox_ok; cbn; tauto.
  - unfold handle_byte, bind, attr, assign, ret. rewrite Hw.
    cbn [buffer set_buffer].
    destruct (18 <? List.length (buffer self ++ [b]))%nat;
      [|unfold keeps, mailbox_ok; cbn; tauto].
    destruct (Nat.eqb_spec (List.length (buffer self ++ [b])) 19) as [Hn|_];
      [|unfold keeps, mailbox_ok; cbn; tauto].
    rewrite parse_is_decode by exact Hn.
    pose proof (keeps_decode (buffer self ++ [b]) (set_buffer (buffer self ++ [b]) self)) as K.
    destruct (decode _ _) as [[] s|e s]; cbn [after] in *;
      unfold keeps, mailbox_ok in *; cbn in *; tauto.
Qed.

Lemma keeps_notify (chunk : list byte) (self : Instrument) :
  keeps self (notify self chunk).
Proof.
  unfold notify. revert self. induction chunk as [|b chunk IH]; intros self.
  - apply keeps_refl.
  - cbn [notification_handler]. unfold bind.
    pose proof (keeps_handle_byte b self) as K.
    destruct (handle_byte b self) as [[] s|e s]; cbn [after] in *.
    + eapply keeps_trans; [exact K|apply IH].
    + exact K.
Qed.

Lemma keeps_deliver (chunks : list (list byte)) (self : Instrument) :
  keeps self (deliver chunks self).
Proof.
  unfold deliver. revert self. induction chunks as [|c chunks IH]; intros self.
  - apply keeps_refl.
  - cbn [fold_left]. eapply keeps_trans; [apply keeps_notify|apply IH].
Qed.

Lemma keeps_arrived (ps : list poll) (self : Instrument) :
  keeps self (arrived ps self).
Proof.
  unfold arrived. revert self. induction ps as [|p ps IH]; intros self.
  - apply keeps_refl.
  - cbn [fold_left]. eapply keeps_trans; [apply keeps_deliver|apply IH].
Qed.

Lemma arrived_cons (p : poll) (ps : list poll) (self : Instrument) :
  arrived (p :: ps) self = arrived ps (deliver (arrivals p) self).
Proof. reflexivity. Qed.

Lemma arrived_snoc (ps : list poll) (p : poll) (self : Instrument) :
  arrived (ps ++ [p]) self = deliver (arrivals p) (arrived ps self).
Proof. unfold arrived. rewrite fold_left_app. reflexivity. Qed.

(** ** The wait loop *)

Lemma wait_loop_timeout (end_ : float) (late : list (list byte))
    (quiet : list poll) (p : poll) (rest : list poll) (self : Instrument) :
  Forall (fun q => PrimFloat.ltb end_ (now q) = false) quiet ->
  is_new_value (arrived (quiet ++ [p]) self) = false ->
  PrimFloat.ltb end_ (now p) = true ->
  wait_loop end_ late (quiet ++ p :: rest) self
  = Some (Ok (Float 0%float) (arrived (quiet ++ [p]) self)).
Proof.
  revert self. induction quiet as [|q quiet IH]; intros self Hq Hflag Hexp.
  - cbn [app wait_loop]. cbn [app] in Hflag.
    change (arrived [p] self) with (deliver (arrivals p) self) in *.
    now rewrite Hflag, Hexp.
  - cbn [app wait_loop]. cbn [app] in Hflag. rewrite arrived_cons in *.
    inversion Hq as [|? ? Hq1 Hq2]; subst.
    destruct (is_new_value (deliver (arrivals q) self)) eqn:E.
    + destruct (keeps_arrived (quiet ++ [p]) (deliver (arrivals q) self)) as (K & _).
      rewrite (K E) in Hflag. discriminate.
    + rewrite Hq1. now apply IH.
Qed.

Lemma wait_loop_success (end_ : float) (late : list (list byte))
    (quiet : list poll) (p : poll) (rest : list poll) (self : Instrument) :
  mailbox_ok self ->
  Forall (fun q => PrimFloat.ltb end_ (now q) = false) quiet ->
  is_new_value (arrived quiet self) = false ->
  is_new_value (arrived (quiet ++ [p]) self) = true ->
  exists v,
    main_value_float (deliver late (arrived (quiet ++ [p]) self)) = Some v /\
    wait_loop end_ late (quiet ++ p :: rest) self
    = Some (Ok v (deliver late (arrived (quiet ++ [p]) self))).
Proof.
  revert self. induction quiet as [|q quiet IH]; intros self Hok Hq Hquiet Hflag.
  - cbn [app wait_loop]. cbn [app] in Hflag.
    change (arrived [p] self) with (deliver (arrivals p) self) in *.
    rewrite Hflag.
    destruct (keeps_deliver (arrivals p) self) as (_ & _ & K).
    destruct (keeps_deliver late (deliver (arrivals p) self)) as (_ & K' & _).
    specialize (K' (K Hok Hflag)).
    destruct (main_value_float (deliver late (deliver (arrivals p) self))) as [v|];
      [|contradiction].
    exists v. split; reflexivity.
  - cbn [app wait_loop]. cbn [app] in Hflag. rewrite arrived_cons in *.
    inversion Hq as [|? ? Hq1 Hq2]; subst.
    destruct (is_new_value (deliver (arrivals q) self)) eqn:E.
    + destruct (keeps_arrived quiet (deliver (arrivals q) self)) as (K & _).
      rewrite (K E) in Hquiet. discriminate.
    + rewrite Hq1. apply IH; try assumption.
      destruct (keeps_deliver (arrivals q) self) as (_ & _ & K). now apply K.
Qed.

(** ** The accessor *)

(** C6: [reading] clears the flag on entry, so a value decoded before the
    call counts for nothing; if the flag is still clear at the first turn
    of the loop that finds the clock past [time.time() + 2] of entry, it
    returns [0.0]; if a decode sets the flag at a turn before that, it
    returns the [main_value_float] the object holds when it is read. *)
Theorem C6_reading_contract (sch : schedule) (self : Instrument)
    (quiet : list poll) (p : poll) (rest : list poll) :
  polls sch = quiet ++ p :: rest ->
  Forall (fun q => PrimFloat.ltb (deadline sch) (now q) = false) quiet ->
  reading sch self = reading sch (set_is_new_value false self) /\
  (is_new_value (arrived (quiet ++ [p]) (set_is_new_value false self)) = false ->
   PrimFloat.ltb (deadline sch) (now p) = true ->
   reading sch self
   = Some (Ok (Float 0%float) (arrived (quiet ++ [p]) (set_is_new_value false self)))) /\
  (is_new_value (arrived quiet (set_is_new_value false self)) = false ->
   is_new_value (arrived (quiet ++ [p]) (set_is_new_value false self)) = true ->
   exists v,
     main_value_float
       (deliver (late sch) (arrived (quiet ++ [p]) (set_is_new_value false self)))
     = Some v /\
     reading sch self
     = Some (Ok v (deliver (late sch)
                     (arrived (quiet ++ [p]) (set_is_new_value false self))))).
Proof.
  intros Hpolls Hquiet. split; [reflexivity|]. split.
  - intros Hflag Hexp. unfold reading. rewrite Hpolls.
    now apply wait_loop_timeout.
  - intros Hbefore Hflag. unfold reading. rewrite Hpolls.
    apply wait_loop_success; try assumption.
    unfold mailbox_ok. cbn. discriminate.
Qed.

Lemma C6_reading_contract_witness :
  is_new_value (after (parse_121GW_data Examples.frame_12345 init)) = true /\
  reading Examples.silence (after (parse_121GW_data Examples.frame_12345 init))
  = Some (Ok (Float 0%float)
            (set_is_new_value false (after (parse_121GW_data Examples.frame_12345 init)))) /\
  reading Examples.one_arrival init
  = Some (Ok (Float 1234.5%float)
            (after (parse_121GW_data Examples.frame_12345 init))).
Proof.
  split; [reflexivity|]. split.
  - exact (proj1 (proj2
      (C6_reading_contract Examples.silence
         (after (parse_121GW_data Examples.frame_12345 init))
         [mkPoll [] 101%float] (mkPoll [] 102.5%float) []
         eq_refl ltac:(repeat constructor))) eq_refl eq_refl).
  - destruct (proj2 (proj2
      (C6_reading_contract Examples.one_arrival init
         [mkPoll [] 100.5%float]
         (mkPoll [firstn 7 Examples.frame_12345; skipn 7 Examples.frame_12345] 101%float)
         [] eq_refl ltac:(repeat constructor))) eq_refl eq_refl)
      as (v & Hv & Hr).
    injection Hv as <-. exact Hr.
Defined.

(** ** Latest wins *)

Lemma commit_overwrites (row1 row2 : mode_row) (r1 r2 : Z) (f1 f2 : list byte)
    (self : Instrument) :
  commit row2 r2 f2 (commit row1 r1 f1 self) = commit row2 r2 f2 self.
Proof. reflexivity. Qed.

(** C4 (as amended): after two valid frames are decoded in succession the
    object is exactly what decoding the second alone would have made it,
    so the slot holds the second frame's Reading and nothing can return
    the first; a [reading] call made then clears the flag on entry and,
    with no further decode before its deadline, returns [0.0], the second
    frame's value staying in the slot. *)
Theorem C4_latest_wins (f1 f2 : list byte) (self : Instrument) (sch : schedule)
    (quiet : list poll) (p : poll) (rest : list poll) :
  List.length f1 = 19%nat -> checksum_ok f1 = true -> indices_valid f1 = true ->
  List.length f2 = 19%nat -> checksum_ok f2 = true -> indices_valid f2 = true ->
  polls sch = quiet ++ p :: rest ->
  Forall (fun q => PrimFloat.ltb (deadline sch) (now q) = false) quiet ->
  PrimFloat.ltb (deadline sch) (now p) = true ->
  is_new_value
    (arrived (quiet ++ [p])
       (set_is_new_value false
          (after (parse_121GW_data f2 (after (parse_121GW_data f1 self)))))) = false ->
  exists row r,
    nth_error MODE_RANGE_LIST (Z.to_nat (mode_idx f2)) = Some row /\
    nth_error (snd row) (Z.to_nat (range_idx f2)) = Some r /\
    after (parse_121GW_data f2 (after (parse_121GW_data f1 self)))
    = after (parse_121GW_data f2 self) /\
    after (parse_121GW_data f2 (after (parse_121GW_data f1 self)))
    = commit row r f2 self /\
    (forall sch', reading sch' (after (parse_121GW_data f2 (after (parse_121GW_data f1 self))))
                  = reading sch' (after (parse_121GW_data f2 self))) /\
    reading sch (after (parse_121GW_data f2 (after (parse_121GW_data f1 self))))
    = Some (Ok (Float 0%float)
              (arrived (quiet ++ [p]) (set_is_new_value false (commit row r f2 self)))).
Proof.
  intros Hl1 Hc1 Hv1 Hl2 Hc2 Hv2 Hpolls Hquiet Hexp Hflag.
  destruct (parse_accepts f1 self Hl1 Hc1 Hv1) as (row1 & r1 & _ & _ & Hp1).
  destruct (parse_accepts f2 self Hl2 Hc2 Hv2) as (row & r & Em & Er & Hp2).
  destruct (parse_accepts f2 (commit row1 r1 f1 self) Hl2 Hc2 Hv2)
    as (row' & r' & Em' & Er' & Hp12).
  assert (row' = row) by congruence. subst row'.
  assert (r' = r) by congruence. subst r'.
  pose proof (mode_idx_range f2) as Hm.
  pose proof (range_idx_range f2) as Hr.
  rewrite getitem_nonneg in Em by lia.
  rewrite getitem_nonneg in Er by lia.
  rewrite Hp1 in *. cbn [after] in *. rewrite Hp12 in *. rewrite Hp2.
  cbn [after] in *. rewrite commit_overwrites in *.
  exists row, r. repeat match goal with |- _ /\ _ => split end;
    try assumption; try reflexivity.
  unfold reading. rewrite Hpolls. now apply wait_loop_timeout.
Qed.

Lemma C4_latest_wins_witness :
  exists row r,
    nth_error MODE_RANGE_LIST (Z.to_nat (mode_idx Examples.frame_12345)) = Some row /\
    nth_error (snd row) (Z.to_nat (range_idx Examples.frame_12345)) = Some r /\
    after (parse_121GW_data Examples.frame_12345
             (after (parse_121GW_data Examples.frame_1 init)))
    = after (parse_121GW_data Examples.frame_12345 init) /\
    after (parse_121GW_data Examples.frame_12345
             (after (parse_121GW_data Examples.frame_1 init)))
    = commit row r Examples.frame_12345 init /\
    (forall sch',
       reading sch' (after (parse_121GW_data Examples.frame_12345
                              (after (parse_121GW_data Examples.frame_1 init))))
       = reading sch' (after (parse_121GW_data Examples.frame_12345 init))) /\
    reading Examples.silence
      (after (parse_121GW_data Examples.frame_12345
                (after (parse_121GW_data Examples.frame_1 init))))
    = Some (Ok (Float 0%float)
              (arrived ([mkPoll [] 101%float] ++ [mkPoll [] 102.5%float])
                 (set_is_new_value false (commit row r Examples.frame_12345 init)))).
Proof.
  exact (C4_latest_wins Examples.frame_1 Examples.frame_12345 init Examples.silence
           [mkPoll [] 101%float] (mkPoll [] 102.5%float) []
           eq_refl eq_refl eq_refl eq_refl eq_refl eq_refl eq_refl
           ltac:(repeat constructor) eq_refl eq_refl).
Defined.

(** Two frames handled during the wait, before the reader looks at the
    flag again: the value returned is the second frame's. *)
Example reading_two_arrivals_in_one_turn :
  reading (mkSchedule 100%float
             [mkPoll [Examples.frame_1; Examples.frame_12345] 100.5%float] [])
    init
  = Some (Ok (Float 1234.5%float)
            (after (parse_121GW_data Examples.frame_12345 init))).
Proof. reflexivity. Qed.

(** C4 as stated fails: two valid frames are decoded, the second carrying
    [1234.5]; the [reading] call that follows, with nothing more arriving,
    returns [0.0], not the second frame's value. *)
Lemma C4_counterexample :
  main_value_float (after (parse_121GW_data Examples.frame_1 init))
  = Some (Float 0.1%float) /\
  main_value_float
    (after (parse_121GW_data Examples.frame_12345
              (after (parse_121GW_data Examples.frame_1 init))))
  = Some (Float 1234.5%float) /\
  is_new_value
    (after (parse_121GW_data Examples.frame_12345
              (after (parse_121GW_data Examples.frame_1 init)))) = true /\
  exists s,
    reading Examples.silence
      (after (parse_121GW_data Examples.frame_12345
                (after (parse_121GW_data Examples.frame_1 init))))
    = Some (Ok (Float 0%float) s).
Proof. repeat split. eexists. reflexivity. Qed.

(** * Further properties of the decoder *)

Import Stream.

(** ** Input of the wrong length *)

Lemma item_outside {A : Type} (l : list A) (i : Z) (self : Instrument) :
  Z.of_nat (List.length l) <= i -> item l i self = Err IndexError self.
Proof.
  intros Hi. unfold item. now rewrite getitem_outside.
Qed.

Lemma item_inside {A : Type} (l : list A) (i : Z) (self : Instrument) :
  0 <= i < Z.of_nat (List.length l) -> exists a, item l i self = Ok a self.
Proof.
  intros Hi. unfold item.
  destruct (getitem_inside l i Hi) as [a ->]. now exists a.
Qed.

Lemma getitem_app_left {A : Type} (l extra : list A) (i : Z) :
  0 <= i < Z.of_nat (List.length l) -> getitem (l ++ extra) i = getitem l i.
Proof.
  intros Hi. rewrite !getitem_nonneg by lia.
  apply nth_error_app1. lia.
Qed.

Lemma item_app_left {A : Type} (l extra : list A) (i : Z) :
  0 <= i < Z.of_nat (List.length l) -> item (l ++ extra) i = item l i.
Proof.
  intros Hi. unfold item. now rewrite getitem_app_left.
Qed.

Lemma xor_loop_app_left (data extra : list byte) (range : list Z) (acc : Z)
    (self : Instrument) :
  Forall (fun i => 0 <= i < Z.of_nat (List.length data)) range ->
  xor_loop (data ++ extra) range acc self = xor_loop data range acc self.
Proof.
  intros H. revert acc. induction H as [|i range Hi _ IH]; intros acc.
  - reflexivity.
  - cbn [xor_loop]. rewrite item_app_left by assumption.
    unfold bind. destruct (item data i self) as [d s|e s] eqn:E; [|reflexivity].
    destruct (item_inside data i self Hi) as [a Ha].
    rewrite Ha in E. injection E as <- <-. apply IH.
Qed.

Lemma range18_inside (data : list byte) :
  (18 <= List.length data)%nat ->
  Forall (fun i => 0 <= i < Z.of_nat (List.length data)) range18.
Proof.
  intros H. unfold range18. cbn [seq map].
  repeat constructor; cbn; lia.
Qed.

(** The loop over [range(18)] on data long enough: it returns, and leaves
    the object alone. *)
Lemma xor_loop_inside (data : list byte) (range : list Z) (acc : Z) (self : Instrument) :
  Forall (fun i => 0 <= i < Z.of_nat (List.length data)) range ->
  exists v, xor_loop data range acc self = Ok v self.
Proof.
  intros H. revert acc. induction H as [|i range Hi _ IH]; intros acc.
  - now exists acc.
  - cbn [xor_loop]. unfold bind.
    destruct (item_inside data i self Hi) as [a ->]. apply IH.
Qed.

(** The same loop on data that ends before index [k] of the range. *)
Lemma xor_loop_outside (data : list byte) (n : nat) (acc : Z) (self : Instrument) :
  (List.length data < n)%nat ->
  xor_loop data (map Z.of_nat (seq 0 n)) acc self = Err IndexError self.
Proof.
  intros Hlt.
  assert (G : forall k a m, (a + k = m)%nat -> (a <= List.length data)%nat ->
              (List.length data < m)%nat ->
              forall acc, xor_loop data (map Z.of_nat (seq a k)) acc self
                          = Err IndexError self).
  { induction k as [|k IH]; intros a m Hm Ha Hd acc0.
    - lia.
    - cbn [seq map xor_loop]. unfold bind.
      destruct (Nat.eq_dec a (List.length data)) as [->|Hne].
      + rewrite item_outside by lia. reflexivity.
      + destruct (item_inside data (Z.of_nat a) self) as [d ->]; [lia|].
        apply (IH (S a) m); lia. }
  apply (G n 0%nat n); lia.
Qed.

Lemma parse_too_short (data : list byte) (self : Instrument) :
  (List.length data < 19)%nat ->
  parse_121GW_data data self = Err IndexError self.
Proof.
  intros Hlen. unfold parse_121GW_data. unfold bind at 1.
  destruct (Nat.eq_dec (List.length data) 18) as [H18|Hne].
  - destruct (xor_loop_inside data range18 0 self) as [v ->];
      [apply range18_inside; lia|].
    unfold bind at 1. rewrite item_outside by lia. reflexivity.
  - unfold range18. rewrite xor_loop_outside by lia. reflexivity.
Qed.

Lemma parse_drops_tail (frame extra : list byte) (self : Instrument) :
  List.length frame = 19%nat ->
  parse_121GW_data (frame ++ extra) self = parse_121GW_data frame self.
Proof.
  intros Hlen. unfold parse_121GW_data.
  unfold bind at 1.
  rewrite xor_loop_app_left by (apply range18_inside; lia).
  rewrite !item_app_left by (rewrite Hlen; cbn; lia).
  reflexivity.
Qed.

(** X1: the decoder needs nineteen bytes and looks at no more: on fewer
    it raises [IndexError] and leaves the object exactly as it was; on
    more it does what it does on the first nineteen. *)
Theorem parse_input_length (data : list byte) (self : Instrument) :
  ((List.length data < 19)%nat ->
   parse_121GW_data data self = Err IndexError self) /\
  ((19 <= List.length data)%nat ->
   parse_121GW_data data self = parse_121GW_data (firstn 19 data) self).
Proof.
  split.
  - apply parse_too_short.
  - intros Hge.
    rewrite <- (firstn_skipn 19 data) at 1.
    apply parse_drops_tail. rewrite length_firstn. lia.
Qed.

Lemma parse_input_length_witness :
  parse_121GW_data (firstn 18 Examples.frame_12345) init = Err IndexError init /\
  parse_121GW_data (Examples.frame_12345 ++ Examples.frame_mode31) init
  = parse_121GW_data Examples.frame_12345 init.
Proof.
  split.
  - apply (proj1 (parse_input_length (firstn 18 Examples.frame_12345) init)).
    cbn. lia.
  - apply (proj2 (parse_input_length
                    (Examples.frame_12345 ++ Examples.frame_mode31) init)).
    cbn. lia.
Defined.

Lemma parse_long_data (data : list byte) (self : Instrument) :
  (19 <= List.length data)%nat ->
  parse_121GW_data data self = decode (firstn 19 data) self.
Proof.
  intros Hge.
  assert (Hlen : List.length (firstn 19 data) = 19%nat)
    by (rewrite length_firstn; lia).
  rewrite <- (firstn_skipn 19 data) at 1.
  rewrite parse_drops_tail by exact Hlen.
  now apply parse_is_decode.
Qed.

Lemma decode_keeps_reassembler (frame : list byte) (self : Instrument) :
  buffer (after (decode frame self)) = buffer self /\
  is_waiting_for_start (after (decode frame self)) = is_waiting_for_start self.
Proof.
  unfold decode.
  destruct (negb (checksum_ok frame)); [now split|].
  destruct (getitem MODE_RANGE_LIST (mode_idx frame)) as [row|]; [|now split].
  destruct (getitem (snd row) (range_idx frame)) as [r|]; now split.
Qed.

Lemma decode_twice (frame : list byte) (self : Instrument) :
  decode frame (after (decode frame self)) = decode frame self.
Proof.
  unfold decode.
  destruct (negb (checksum_ok frame)); [reflexivity|].
  destruct (getitem MODE_RANGE_LIST (mode_idx frame)) as [row|]; [|reflexivity].
  destruct (getitem (snd row) (range_idx frame)) as [r|]; reflexivity.
Qed.

Lemma parse_keeps_buffer (data : list byte) (self : Instrument) :
  buffer (after (parse_121GW_data data self)) = buffer self /\
  is_waiting_for_start (after (parse_121GW_data data self))
  = is_waiting_for_start self.
Proof.
  destruct (Nat.lt_ge_cases (List.length data) 19) as [Hlt|Hge].
  - rewrite parse_too_short by exact Hlt. now split.
  - rewrite parse_long_data by exact Hge. apply decode_keeps_reassembler.
Qed.

(** X2: whatever it is given and however it ends, the decoder leaves the
    reassembler's [buffer] and [is_waiting_for_start] untouched, and it
    never clears the new-value flag nor unsets the stored value. *)
Theorem parse_keeps_reassembler (data : list byte) (self : Instrument) :
  buffer (after (parse_121GW_data data self)) = buffer self /\
  is_waiting_for_start (after (parse_121GW_data data self))
  = is_waiting_for_start self /\
  (is_new_value self = true ->
   is_new_value (after (parse_121GW_data data self)) = true) /\
  (main_value_float self <> None ->
   main_value_float (after (parse_121GW_data data self)) <> None).
Proof.
  destruct (parse_keeps_buffer data self) as [Hb Hw].
  split; [exact Hb|]. split; [exact Hw|].
  destruct (Nat.lt_ge_cases (List.length data) 19) as [Hlt|Hge].
  - rewrite parse_too_short by exact Hlt. now split.
  - rewrite parse_long_data by exact Hge.
    destruct (keeps_decode (firstn 19 data) self) as (K1 & K2 & _).
    now split.
Qed.

(** X3: decoding the same bytes a second time changes nothing: the call
    ends the same way and leaves the object the first call made. *)
Theorem parse_twice (data : list byte) (self : Instrument) :
  parse_121GW_data data (after (parse_121GW_data data self))
  = parse_121GW_data data self.
Proof.
  destruct (Nat.lt_ge_cases (List.length data) 19) as [Hlt|Hge].
  - rewrite !parse_too_short by exact Hlt. reflexivity.
  - rewrite !parse_long_data by exact Hge. apply decode_twice.
Qed.

(** ** What the checksum catches *)

Lemma byte_val_inj (a b : byte) : byte_val a = byte_val b -> a = b.
Proof.
  unfold byte_val. intros H. apply N2Z.inj in H.
  pose proof (Byte.of_to_N a) as Ha. rewrite H, Byte.of_to_N in Ha.
  now injection Ha.
Qed.

Lemma xor_fold (l : list byte) (acc : Z) :
  fold_left (fun a b => Z.lxor a (byte_val b)) l acc = Z.lxor acc (xor_all l).
Proof.
  unfold xor_all. revert acc. induction l as [|b l IH]; intros acc.
  - cbn. now rewrite Z.lxor_0_r.
  - cbn [fold_left]. rewrite IH, (IH (Z.lxor 0 (byte_val b))).
    rewrite Z.lxor_0_l, Z.lxor_assoc. reflexivity.
Qed.

Lemma xor_all_app (l1 l2 : list byte) :
  xor_all (l1 ++ l2) = Z.lxor (xor_all l1) (xor_all l2).
Proof.
  unfold xor_all at 1. rewrite fold_left_app, xor_fold. reflexivity.
Qed.

Lemma xor_all_cons (b : byte) (l : list byte) :
  xor_all (b :: l) = Z.lxor (byte_val b) (xor_all l).
Proof.
  unfold xor_all at 1. cbn [fold_left]. rewrite xor_fold, Z.lxor_0_l. reflexivity.
Qed.

Lemma lxor_cancel_l (a x y : Z) : Z.lxor a x = Z.lxor a y -> x = y.
Proof.
  intros H. apply (f_equal (Z.lxor a)) in H.
  now rewrite <- !Z.lxor_assoc, Z.lxor_nilpotent, !Z.lxor_0_l in H.
Qed.

Lemma lxor_cancel_r (a x y : Z) : Z.lxor x a = Z.lxor y a -> x = y.
Proof.
  rewrite (Z.lxor_comm x), (Z.lxor_comm y). apply lxor_cancel_l.
Qed.

(** The checksum matches exactly when the XOR of all nineteen bytes is 0. *)
Lemma checksum_ok_xor_zero (frame : list byte) :
  List.length frame = 19%nat ->
  checksum_ok frame = (xor_all frame =? 0).
Proof.
  intros Hlen.
  rewrite <- (firstn_skipn 18 frame) at 2.
  assert (Hlast : skipn 18 frame = [nth 18 frame x00]).
  { explode_frame frame Hlen. reflexivity. }
  rewrite xor_all_app, Hlast, xor_all_cons.
  unfold checksum_ok, byte_at, xor_all at 3. cbn [fold_left].
  rewrite Z.lxor_0_r.
  destruct (Z.eqb_spec (xor_all (firstn 18 frame)) (byte_val (nth 18 frame x00)))
    as [E|E].
  - rewrite E, Z.lxor_nilpotent. reflexivity.
  - symmetry. apply Z.eqb_neq. intros H. apply Z.lxor_eq in H. contradiction.
Qed.

(** X4: change any one byte of a frame whose checksum matches, at any of
    the nineteen positions, and the checksum no longer matches; the
    decoder drops the frame and leaves the object as it was. *)
Theorem single_byte_corruption (pre post : list byte) (b b' : byte)
    (self : Instrument) :
  List.length (pre ++ b :: post) = 19%nat ->
  checksum_ok (pre ++ b :: post) = true ->
  b' <> b ->
  checksum_ok (pre ++ b' :: post) = false /\
  parse_121GW_data (pre ++ b' :: post) self = Ok tt self.
Proof.
  intros Hlen Hok Hne.
  assert (Hlen' : List.length (pre ++ b' :: post) = 19%nat).
  { rewrite length_app in *. exact Hlen. }
  assert (Hbad : checksum_ok (pre ++ b' :: post) = false).
  { rewrite checksum_ok_xor_zero in * by assumption.
    apply Z.eqb_eq in Hok. apply Z.eqb_neq. intros H.
    rewrite xor_all_app, xor_all_cons in Hok, H.
    rewrite <- H in Hok.
    apply lxor_cancel_l, lxor_cancel_r, byte_val_inj in Hok.
    congruence. }
  split; [exact Hbad|]. now apply parse_bad_checksum.
Qed.

Lemma single_byte_corruption_witness :
  checksum_ok (firstn 7 Examples.frame_12345 ++ x31 :: skipn 8 Examples.frame_12345)
  = false /\
  parse_121GW_data
    (firstn 7 Examples.frame_12345 ++ x31 :: skipn 8 Examples.frame_12345) init
  = Ok tt init.
Proof.
  apply (single_byte_corruption (firstn 7 Examples.frame_12345)
           (skipn 8 Examples.frame_12345) x30 x31 init eq_refl eq_refl).
  discriminate.
Defined.

(** ** The number a frame decodes to *)

Lemma table_exponents (row : mode_row) (r : Z) :
  In row MODE_RANGE_LIST -> In r (snd row) -> -12 <= r <= 3.
Proof.
  intros Hrow Hr.
  assert (H : forallb (fun row => forallb (fun e => (-12 <=? e) && (e <=? 3)) (snd row))
                MODE_RANGE_LIST = true) by reflexivity.
  rewrite forallb_forall in H. specialize (H row Hrow).
  rewrite forallb_forall in H. specialize (H r Hr).
  apply andb_prop in H. destruct H as [H1 H2].
  apply Z.leb_le in H1. apply Z.leb_le in H2. lia.
Qed.

Lemma accepted_exponent (frame : list byte) (row : mode_row) (r : Z) :
  getitem MODE_RANGE_LIST (mode_idx frame) = Some row ->
  getitem (snd row) (range_idx frame) = Some r ->
  -12 <= r <= 3.
Proof.
  intros Em Er.
  pose proof (mode_idx_range frame) as Hm.
  pose proof (range_idx_range frame) as Hr.
  rewrite getitem_nonneg in Em by lia.
  rewrite getitem_nonneg in Er by lia.
  apply nth_error_In in Em. apply nth_error_In in Er.
  now apply (table_exponents row r).
Qed.

(** X5: an accepted frame stores an exponent between -12 and 3, and its
    value is a Python [int], [mainValue * sign * 10 ** exponent] computed
    exactly, when the overflow bit is clear and the exponent is not
    negative; in every other case it is a [float]. *)
Theorem decoded_number (frame : list byte) (self : Instrument) :
  List.length frame = 19%nat ->
  checksum_ok frame = true ->
  indices_valid frame = true ->
  exists self',
    parse_121GW_data frame self = Ok tt self' /\
    -12 <= main_range self' <= 3 /\
    main_value_float self'
    = Some (if overflow_bit frame then
              Float (if sign_bit frame then (-9.9e37)%float else 9.9e37%float)
            else if main_range self' <? 0 then
              Float (PrimFloat.mul
                       (float_of_int (mantissa frame * sign frame))
                       (PrimFloat.div 1%float (float_of_int (10 ^ (- main_range self')))))
            else Int (mantissa frame * sign frame * 10 ^ main_range self')).
Proof.
  intros Hlen Hc Hv.
  destruct (parse_accepts frame self Hlen Hc Hv) as (row & r & Em & Er & Hp).
  exists (commit row r frame self). split; [exact Hp|].
  split; [exact (accepted_exponent frame row r Em Er)|].
  cbn [commit main_value_float main_range set_is_new_value set_main_value_float
       set_main_range].
  f_equal. destruct (overflow_bit frame) eqn:Ho.
  - now apply overflow_value.
  - unfold frame_value. rewrite Ho. unfold pow10.
    destruct (r <? 0); reflexivity.
Qed.

Lemma decoded_number_witness :
  exists self',
    parse_121GW_data Examples.frame_hz init = Ok tt self' /\
    main_range self' = 1 /\
    main_value_float self' = Some (Int (-123450)).
Proof.
  destruct (decoded_number Examples.frame_hz init eq_refl eq_refl eq_refl)
    as (self' & Hp & _ & Hv).
  exists self'. split; [exact Hp|].
  injection Hp as <-. split; [reflexivity|exact Hv].
Defined.

(** X6: a frame with the overflow bit clear and a zero mantissa decodes
    to [+0.0] (to the int [0] when the exponent is not negative) whatever
    its sign bit says: the sign of a zero reading is lost, and the value
    is the one [reading] returns on timeout. *)
Theorem zero_reading (frame : list byte) (self : Instrument) :
  List.length frame = 19%nat ->
  checksum_ok frame = true ->
  indices_valid frame = true ->
  overflow_bit frame = false ->
  mantissa frame = 0 ->
  exists self',
    parse_121GW_data frame self = Ok tt self' /\
    main_value_float self'
    = Some (if main_range self' <? 0 then Float 0%float else Int 0).
Proof.
  intros Hlen Hc Hv Ho Hm.
  destruct (parse_accepts frame self Hlen Hc Hv) as (row & r & Em & Er & Hp).
  exists (commit row r frame self). split; [exact Hp|].
  pose proof (accepted_exponent frame row r Em Er) as Hr.
  cbn [commit main_value_float main_range set_is_new_value set_main_value_float
       set_main_range].
  f_equal. unfold frame_value. rewrite Ho, Hm. unfold mul at 2.
  rewrite Z.mul_0_l.
  assert (Hcases : r = -12 \/ r = -11 \/ r = -10 \/ r = -9 \/ r = -8 \/ r = -7 \/
                   r = -6 \/ r = -5 \/ r = -4 \/ r = -3 \/ r = -2 \/ r = -1 \/
                   0 <= r) by lia.
  repeat (destruct Hcases as [->|Hcases]; [reflexivity|]).
  unfold pow10. destruct (Z.ltb_spec r 0) as [?|_]; [lia|].
  reflexivity.
Qed.

Lemma zero_reading_witness :
  sign_bit Examples.frame_minus_zero = true /\
  exists self',
    parse_121GW_data Examples.frame_minus_zero init = Ok tt self' /\
    main_value_float self' = Some (Float 0%float).
Proof.
  split; [reflexivity|].
  destruct (zero_reading Examples.frame_minus_zero init
              eq_refl eq_refl eq_refl eq_refl eq_refl) as (self' & Hp & Hv).
  exists self'. split; [exact Hp|].
  injection Hp as <-. exact Hv.
Defined.

(** * Further properties of the reassembler *)

Lemma byte_is_marker (b : byte) : (byte_val b =? 0xF2) = true -> b = xf2.
Proof.
  intros H. apply Z.eqb_eq in H. apply byte_val_inj. exact H.
Qed.

(** ** What every reachable state looks like *)

Lemma scanning_empty_ok (self : Instrument) :
  is_waiting_for_start self = true -> buffer self = [] -> reassembler_ok self.
Proof.
  intros Hw Hb. unfold reassembler_ok. rewrite Hw, Hb.
  split; [reflexivity|]. split; [discriminate|]. cbn. lia.
Qed.

Lemma accumulating_ok (self : Instrument) (rest : list byte) :
  is_waiting_for_start self = false ->
  buffer self = xf2 :: rest ->
  (List.length rest <= 18)%nat ->
  reassembler_ok self.
Proof.
  intros Hw Hb Hn. unfold reassembler_ok. rewrite Hw, Hb.
  split; [discriminate|]. split; [now exists rest|]. cbn. lia.
Qed.

Lemma handle_byte_ok (b : byte) (self : Instrument) :
  reassembler_ok self -> reassembler_ok (after (handle_byte b self)).
Proof.
  intros (Hscan & Hacc & Hlen).
  destruct (is_waiting_for_start self) eqn:Hw.
  - rewrite step_scanning by exact Hw. cbn [after].
    specialize (Hscan eq_refl).
    destruct (byte_val b =? 0xF2) eqn:Hb.
    + apply byte_is_marker in Hb. subst b.
      apply (accumulating_ok _ []); [reflexivity| |cbn; lia].
      cbn. now rewrite Hscan.
    + now apply scanning_empty_ok.
  - destruct (Hacc eq_refl) as [rest Hbuf].
    rewrite Hbuf in Hlen. cbn [List.length] in Hlen.
    destruct (Nat.lt_trichotomy (List.length (buffer self)) 18) as [Hlt|[Heq|Hgt]].
    + rewrite step_accumulating by assumption. cbn [after].
      rewrite Hbuf in Hlt. cbn [List.length] in Hlt.
      apply (accumulating_ok _ (rest ++ [b])).
      * exact Hw.
      * cbn. now rewrite Hbuf.
      * rewrite length_app. cbn. lia.
    + rewrite step_completing by assumption.
      pose proof (parse_keeps_buffer (buffer self ++ [b])
                    (set_buffer (buffer self ++ [b]) self)) as [Kb Kw].
      rewrite Hbuf in Heq. cbn [List.length] in Heq.
      destruct (parse_121GW_data _ _) as [[] s|e s]; cbn [after] in *.
      * now apply scanning_empty_ok.
      * cbn [buffer is_waiting_for_start set_buffer] in Kb, Kw.
        apply (accumulating_ok _ (rest ++ [b])).
        -- now rewrite Kw.
        -- now rewrite Kb, Hbuf.
        -- rewrite length_app. cbn. lia.
    + rewrite step_overlong by assumption. cbn [after].
      now apply scanning_empty_ok.
Qed.

Lemma notify_ok (chunk : list byte) (self : Instrument) :
  reassembler_ok self -> reassembler_ok (notify self chunk).
Proof.
  unfold notify. revert self. induction chunk as [|b chunk IH]; intros self H.
  - exact H.
  - cbn [notification_handler]. unfold bind.
    pose proof (handle_byte_ok b self H) as K.
    destruct (handle_byte b self) as [[] s|e s]; cbn [after] in *.
    + now apply IH.
    + exact K.
Qed.

(** X7: between two notifications the reassembler is always either
    scanning with an empty buffer or holding at most nineteen bytes of
    which the first is the marker [0xF2]; this holds from construction on,
    also after notifications that raised. *)
Theorem reassembler_invariant (chunks : list (list byte)) (self : Instrument) :
  reassembler_ok self -> reassembler_ok (deliver chunks self).
Proof.
  unfold deliver. revert self. induction chunks as [|c chunks IH]; intros self H.
  - exact H.
  - cbn [fold_left]. apply IH. now apply notify_ok.
Qed.

Lemma reassembler_invariant_witness :
  reassembler_ok
    (deliver [Examples.frame_mode31; skipn 3 Examples.frame_12345;
              firstn 9 Examples.frame_1] init).
Proof.
  apply (reassembler_invariant
           [Examples.frame_mode31; skipn 3 Examples.frame_12345;
            firstn 9 Examples.frame_1] init).
  now apply scanning_empty_ok.
Defined.

(** ** Bytes between frames *)

Lemma skip_junk (junk : list byte) (self : Instrument) :
  is_waiting_for_start self = true ->
  marker_free junk ->
  notification_handler junk self = Ok tt self.
Proof.
  intros Hw Hjunk. induction Hjunk as [|b junk Hb _ IH].
  - reflexivity.
  - cbn [notification_handler]. unfold bind.
    rewrite step_scanning by exact Hw.
    apply Z.eqb_neq in Hb. rewrite Hb. exact IH.
Qed.

(** X8: while scanning, bytes other than [0xF2] are dropped without a
    trace: a call handles [junk ++ data] exactly as it handles [data]. *)
Theorem junk_before_marker (junk data : list byte) (self : Instrument) :
  is_waiting_for_start self = true ->
  marker_free junk ->
  notification_handler (junk ++ data) self = notification_handler data self.
Proof.
  intros Hw Hjunk. rewrite handler_app. unfold bind.
  now rewrite skip_junk.
Qed.

Lemma junk_before_marker_witness :
  notification_handler ([x00; x19; xff] ++ Examples.frame_12345) init
  = notification_handler Examples.frame_12345 init.
Proof.
  apply (junk_before_marker [x00; x19; xff] Examples.frame_12345 init eq_refl).
  repeat constructor; discriminate.
Defined.

(** ** When a notification raises *)

Lemma handle_byte_raise (b : byte) (self s : Instrument) (e : exn) :
  handle_byte b self = Err e s ->
  e = IndexError /\
  is_waiting_for_start s = false /\
  List.length (buffer s) = 19%nat /\
  checksum_ok (buffer s) = true /\
  indices_valid (buffer s) = false.
Proof.
  intros H.
  destruct (is_waiting_for_start self) eqn:Hw.
  - rewrite step_scanning in H by exact Hw. discriminate H.
  - destruct (Nat.lt_trichotomy (List.length (buffer self)) 18) as [Hlt|[Heq|Hgt]].
    + rewrite step_accumulating in H by assumption. discriminate H.
    + rewrite step_completing in H by assumption.
      set (buf := buffer self ++ [b]) in *.
      assert (Hlen : List.length buf = 19%nat)
        by (unfold buf; rewrite length_app, Heq; reflexivity).
      destruct (checksum_ok buf) eqn:Hc.
      * destruct (indices_valid buf) eqn:Hv.
        -- destruct (parse_accepts buf (set_buffer buf self) Hlen Hc Hv)
             as (row & r & _ & _ & Hp).
           rewrite Hp in H. discriminate H.
        -- destruct (parse_raises buf (set_buffer buf self) Hlen Hc Hv)
             as (s' & Hp & _ & _ & _ & Kb & Kw).
           rewrite Hp in H. injection H as <- <-.
           cbn [buffer is_waiting_for_start set_buffer] in Kb, Kw.
           rewrite Kb, Kw. repeat split; assumption.
      * rewrite (parse_bad_checksum buf (set_buffer buf self) Hlen Hc) in H.
        discriminate H.
    + rewrite step_overlong in H by assumption. discriminate H.
Qed.

Lemma handler_raise_state (data : list byte) (self s : Instrument) (e : exn) :
  notification_handler data self = Err e s ->
  e = IndexError /\
  is_waiting_for_start s = false /\
  List.length (buffer s) = 19%nat /\
  checksum_ok (buffer s) = true /\
  indices_valid (buffer s) = false.
Proof.
  revert self. induction data as [|b data IH]; intros self H.
  - discriminate H.
  - cbn [notification_handler] in H. unfold bind in H.
    destruct (handle_byte b self) as [[] s1|e1 s1] eqn:E.
    + exact (IH s1 H).
    + injection H as <- <-. exact (handle_byte_raise b self s1 e1 E).
Qed.

(** X9: a notification can only raise [IndexError], and only on
    completing a frame whose checksum matches and whose mode or range
    index misses the table; it then leaves those nineteen bytes, marker
    first, in the buffer, still accumulating. *)
Theorem handler_raise (data : list byte) (self s : Instrument) (e : exn) :
  notification_handler data self = Err e s ->
  e = IndexError /\
  is_waiting_for_start s = false /\
  List.length (buffer s) = 19%nat /\
  checksum_ok (buffer s) = true /\
  indices_valid (buffer s) = false /\
  (reassembler_ok self -> exists payload, buffer s = xf2 :: payload).
Proof.
  intros H.
  destruct (handler_raise_state data self s e H) as (He & Hw & Hlen & Hc & Hv).
  repeat match goal with |- _ /\ _ => split end; try assumption.
  intros Hok.
  pose proof (notify_ok data self Hok) as (_ & Hacc & _).
  unfold notify in Hacc. rewrite H in Hacc. cbn [after] in Hacc.
  exact (Hacc Hw).
Qed.

Lemma handler_raise_witness :
  notification_handler (x07 :: Examples.frame_range7 ++ [x01]) init
  = Err IndexError Examples.stuck_range7 /\
  IndexError = IndexError /\
  is_waiting_for_start Examples.stuck_range7 = false /\
  List.length (buffer Examples.stuck_range7) = 19%nat /\
  checksum_ok (buffer Examples.stuck_range7) = true /\
  indices_valid (buffer Examples.stuck_range7) = false /\
  (reassembler_ok init -> exists payload, buffer Examples.stuck_range7 = xf2 :: payload).
Proof.
  assert (H : notification_handler (x07 :: Examples.frame_range7 ++ [x01]) init
              = Err IndexError Examples.stuck_range7)
    by (vm_compute; reflexivity).
  split; [exact H|].
  exact (handler_raise (x07 :: Examples.frame_range7 ++ [x01]) init
           Examples.stuck_range7 IndexError H).
Defined.

(** X10: after a notification has raised, the next byte delivered is
    thrown away together with the buffer, even when it is the marker of
    the next frame; if no [0xF2] follows in that notification, it ends
    scanning with nothing decoded. *)
Theorem byte_after_raise (data : list byte) (self s : Instrument) (e : exn)
    (b : byte) (payload : list byte) :
  notification_handler data self = Err e s ->
  marker_free payload ->
  notification_handler (b :: payload) s
  = Ok tt (set_is_waiting_for_start true (set_buffer [] s)).
Proof.
  intros Hraise Hfree.
  destruct (handler_raise_state data self s e Hraise) as (_ & Hw & Hlen & _ & _).
  cbn [notification_handler]. unfold bind.
  rewrite step_overlong by (assumption || lia).
  now apply skip_junk.
Qed.

Lemma byte_after_raise_witness :
  notification_handler (x07 :: Examples.frame_range7 ++ [x01]) init
  = Err IndexError Examples.stuck_range7 /\
  marker_free (tl Examples.frame_12345) /\
  notification_handler Examples.frame_12345 Examples.stuck_range7
  = Ok tt (set_is_waiting_for_start true (set_buffer [] Examples.stuck_range7)).
Proof.
  assert (H : notification_handler (x07 :: Examples.frame_range7 ++ [x01]) init
              = Err IndexError Examples.stuck_range7)
    by (vm_compute; reflexivity).
  assert (Hfree : marker_free (tl Examples.frame_12345))
    by (repeat constructor; discriminate).
  split; [exact H|]. split; [exact Hfree|].
  exact (byte_after_raise (x07 :: Examples.frame_range7 ++ [x01]) init
           Examples.stuck_range7 IndexError xf2 (tl Examples.frame_12345) H Hfree).
Defined.

(** ** A clean stream *)

Lemma acceptable_parts (f : list byte) :
  acceptable f ->
  exists body last, f = xf2 :: body ++ [last] /\ List.length body = 17%nat.
Proof.
  intros ([payload ->] & Hlen & _ & _).
  cbn [List.length] in Hlen.
  destruct (split_last_byte payload) as (body & last & -> & Hbody); [lia|].
  now exists body, last.
Qed.

Lemma acceptable_commit (f : list byte) (self : Instrument) :
  acceptable f ->
  exists row r, forall s, parse_121GW_data f s = Ok tt (commit row r f s).
Proof.
  intros (_ & Hlen & Hc & Hv).
  destruct (parse_accepts f self Hlen Hc Hv) as (row & r & Em & Er & _).
  exists row, r. intros s.
  destruct (parse_accepts f s Hlen Hc Hv) as (row' & r' & Em' & Er' & Hp).
  assert (row' = row) by congruence. subst row'.
  assert (r' = r) by congruence. subst r'.
  exact Hp.
Qed.

Lemma handler_acceptable (f : list byte) (self : Instrument) :
  acceptable f ->
  is_waiting_for_start self = true ->
  buffer self = [] ->
  notification_handler f self = Ok tt (after (parse_121GW_data f self)).
Proof.
  intros Hf Hw Hb.
  destruct (acceptable_parts f Hf) as (body & last & Ef & Hbody).
  destruct (acceptable_commit f self Hf) as (row & r & Hp).
  rewrite Ef in *.
  rewrite (handler_whole_frame body last self Hw Hb Hbody), !Hp.
  cbn [after]. destruct self; cbn in Hw, Hb; subst. reflexivity.
Qed.

Lemma decoded_accumulating (bs : list byte) (self : Instrument) :
  is_waiting_for_start self = false ->
  (List.length (buffer self) + List.length bs <= 18)%nat ->
  decoded bs self = [].
Proof.
  revert self. induction bs as [|b bs IH]; intros self Hw Hn.
  - reflexivity.
  - cbn [List.length] in Hn. cbn [decoded].
    rewrite step_accumulating by (assumption || lia).
    unfold published.
    destruct (Nat.eqb_spec (List.length (buffer self)) 18) as [?|_]; [lia|].
    rewrite andb_false_r. cbn [andb].
    apply IH.
    + exact Hw.
    + cbn [buffer set_buffer]. rewrite length_app. cbn [List.length]. lia.
Qed.

Lemma decoded_acceptable (f : list byte) (self : Instrument) :
  acceptable f ->
  is_waiting_for_start self = true ->
  buffer self = [] ->
  decoded f self = [current_reading (after (parse_121GW_data f self))].
Proof.
  intros Hf Hw Hb.
  destruct (acceptable_parts f Hf) as (body & last & Ef & Hbody).
  destruct (acceptable_commit f self Hf) as (row & r & Hp).
  destruct Hf as (_ & Hlen & Hc & _).
  rewrite Ef in *.
  cbn [decoded]. rewrite step_scanning by exact Hw.
  change (byte_val xf2 =? 0xF2) with true. cbv beta iota.
  unfold published at 1. rewrite Hw. cbn [negb andb].
  rewrite Hb. cbn [app].
  set (s1 := set_buffer [xf2] (set_is_waiting_for_start false self)).
  assert (Hacc : notification_handler body s1
                 = Ok tt (set_buffer (buffer s1 ++ body) s1))
    by (apply accumulate_many; [reflexivity|cbn; lia]).
  rewrite (decoded_app body [last] s1 _ Hacc).
  rewrite decoded_accumulating by (reflexivity || (cbn; lia)).
  cbn [app decoded buffer set_buffer s1].
  set (s2 := set_buffer (xf2 :: body) s1).
  assert (Hstep : handle_byte last s2
                  = Ok tt (set_is_waiting_for_start true
                             (set_buffer [] (commit row r (xf2 :: body ++ [last])
                                               (set_buffer (xf2 :: body ++ [last]) s2))))).
  { rewrite step_completing by (cbn; lia || reflexivity).
    cbn [buffer set_buffer s2 app]. now rewrite Hp. }
  rewrite Hstep. unfold published. rewrite Hstep.
  cbn [is_waiting_for_start buffer set_buffer s2 s1 negb andb List.length app].
  rewrite Hbody. cbn [Nat.eqb andb]. rewrite Hc.
  rewrite Hp. reflexivity.
Qed.

Lemma reading_of_acceptable (f : list byte) (s s' : Instrument) :
  acceptable f ->
  current_reading (after (parse_121GW_data f s))
  = current_reading (after (parse_121GW_data f s')).
Proof.
  intros Hf. destruct (acceptable_commit f s Hf) as (row & r & Hp).
  now rewrite !Hp.
Qed.

(** X11: a stream made of acceptable frames one after the other, handled
    by one call that starts scanning with an empty buffer, is decoded
    frame by frame: the call returns, the object is what decoding the
    frames in order makes it, and each frame's Reading is published, in
    order. *)
Theorem clean_stream (frames : list (list byte)) (self : Instrument) :
  is_waiting_for_start self = true ->
  buffer self = [] ->
  Forall acceptable frames ->
  notification_handler (List.concat frames) self
  = Ok tt (fold_left (fun s f => after (parse_121GW_data f s)) frames self) /\
  decoded (List.concat frames) self
  = map (fun f => current_reading (after (parse_121GW_data f self))) frames.
Proof.
  intros Hw Hb Hall. revert self Hw Hb.
  induction Hall as [|f frames Hf Hrest IH]; intros self Hw Hb.
  - split; reflexivity.
  - cbn [List.concat fold_left map].
    pose proof (handler_acceptable f self Hf Hw Hb) as Hh.
    destruct (parse_keeps_buffer f self) as [Kb Kw].
    rewrite Hb in Kb. rewrite Hw in Kw.
    destruct (IH (after (parse_121GW_data f self)) Kw Kb) as [IHh IHd].
    split.
    + rewrite handler_app. unfold bind. rewrite Hh. exact IHh.
    + rewrite (decoded_app f (List.concat frames) self _ Hh).
      rewrite (decoded_acceptable f self Hf Hw Hb), IHd.
      cbn [app]. f_equal.
      apply map_ext_in. intros g Hg.
      rewrite Forall_forall in Hrest.
      apply reading_of_acceptable. now apply Hrest.
Qed.

Lemma clean_stream_witness :
  notification_handler
    (List.concat [Examples.frame_1; Examples.frame_hz; Examples.frame_12345]) init
  = Ok tt (after (parse_121GW_data Examples.frame_12345 init)) /\
  decoded (List.concat [Examples.frame_1; Examples.frame_hz; Examples.frame_12345]) init
  = [mkReading "V" "Voltage DC (V)" (-1) (Some (Float 0.1%float));
     mkReading "Hz" "Frequency (Hz)" 1 (Some (Int (-123450)));
     mkReading "V" "Voltage DC (V)" (-1) (Some (Float 1234.5%float))].
Proof.
  assert (Hok : forall f, List.length f = 19%nat -> hd x00 f = xf2 ->
                  checksum_ok f = true -> indices_valid f = true -> acceptable f).
  { intros f Hlen Hhd Hc Hv. repeat split; try assumption.
    destruct f as [|b f]; [discriminate Hlen|]. cbn in Hhd. subst b. now exists f. }
  destruct (clean_stream [Examples.frame_1; Examples.frame_hz; Examples.frame_12345] init
              eq_refl eq_refl) as [Hh Hd].
  - repeat constructor; apply Hok; reflexivity.
  - split.
    + rewrite Hh. vm_compute. reflexivity.
    + rewrite Hd. vm_compute. reflexivity.
Defined.

(** X12: a frame whose checksum does not match, met while scanning with
    an empty buffer, leaves no trace: the call returns and the object,
    Reading, flag and reassembler alike, is what it was, ready for the
    next marker. *)
Theorem corrupt_frame_leaves_no_trace (payload : list byte) (self : Instrument) :
  List.length payload = 18%nat ->
  is_waiting_for_start self = true ->
  buffer self = [] ->
  checksum_ok (xf2 :: payload) = false ->
  notification_handler (xf2 :: payload) self = Ok tt self.
Proof.
  intros Hn Hw Hb Hc.
  destruct (split_last_byte payload Hn) as (body & last & -> & Hbody).
  rewrite (handler_whole_frame body last self Hw Hb Hbody).
  rewrite parse_bad_checksum; [|cbn; rewrite length_app, Hbody; reflexivity|exact Hc].
  destruct self; cbn in Hw, Hb; subst. reflexivity.
Qed.

Lemma corrupt_frame_leaves_no_trace_witness :
  notification_handler Examples.frame_corrupt init = Ok tt init.
Proof.
  exact (corrupt_frame_leaves_no_trace (tl Examples.frame_corrupt) init
           eq_refl eq_refl eq_refl eq_refl).
Defined.

(** * Further properties of the accessor *)

Lemma wait_loop_result (end_ : float) (late : list (list byte)) (ps : list poll)
    (self : Instrument) (o : outcome num) :
  mailbox_ok self ->
  wait_loop end_ late ps self = Some o ->
  exists v s,
    o = Ok v s /\
    ((v = Float 0%float /\ is_new_value s = false) \/
     (is_new_value s = true /\ main_value_float s = Some v)).
Proof.
  revert self. induction ps as [|p ps IH]; intros self Hok H.
  - discriminate H.
  - cbn [wait_loop] in H.
    destruct (keeps_deliver (arrivals p) self) as (_ & _ & K).
    specialize (K Hok).
    destruct (is_new_value (deliver (arrivals p) self)) eqn:Hflag.
    + destruct (keeps_deliver late (deliver (arrivals p) self)) as (Kf & Kv & _).
      specialize (Kf Hflag). specialize (Kv (K Hflag)).
      destruct (main_value_float (deliver late (deliver (arrivals p) self)))
        as [v|] eqn:Hv; [|contradiction].
      injection H as <-. exists v, (deliver late (deliver (arrivals p) self)).
      split; [reflexivity|]. right. now split.
    + destruct (PrimFloat.ltb end_ (now p)).
      * injection H as <-. exists (Float 0%float), (deliver (arrivals p) self).
        split; [reflexivity|]. left. now split.
      * exact (IH _ K H).
Qed.

Lemma wait_loop_returns (end_ : float) (late : list (list byte)) (ps : list poll)
    (self : Instrument) :
  Exists (fun p => PrimFloat.ltb end_ (now p) = true) ps ->
  exists o, wait_loop end_ late ps self = Some o.
Proof.
  revert self. induction ps as [|p ps IH]; intros self H.
  - inversion H.
  - cbn [wait_loop].
    destruct (is_new_value (deliver (arrivals p) self)); [eexists; reflexivity|].
    destruct (PrimFloat.ltb end_ (now p)) eqn:Hp; [eexists; reflexivity|].
    apply IH. inversion H as [? ? Hhd|? ? Htl]; subst; [congruence|exact Htl].
Qed.

Lemma cleared_mailbox_ok (self : Instrument) : mailbox_ok (set_is_new_value false self).
Proof. unfold mailbox_ok. cbn. discriminate. Qed.



(** X14: [reading] returns no later than the first turn of its loop that
    finds the clock past the deadline, whatever arrives and whatever state
    the object is in. *)
Theorem reading_returns (sch : schedule) (self : Instrument) :
  Exists (expired sch) (polls sch) ->
  exists v s, reading sch self = Some (Ok v s).
Proof.
  intros Hexp. unfold reading.
  destruct (wait_loop_returns (PrimFloat.add (entry_time sch) (float_of_int 2))
              (late sch) (polls sch) (set_is_new_value false self) Hexp) as [o Ho].
  destruct (wait_loop_result _ _ _ _ o (cleared_mailbox_ok self) Ho)
    as (v & s & -> & _).
  now exists v, s.
Qed.

Lemma reading_returns_witness :
  exists v s, reading Examples.silence init = Some (Ok v s).
Proof.
  apply (reading_returns Examples.silence init).
  apply Exists_cons_tl. apply Exists_cons_hd. reflexivity.
Defined.

(** * Finding the meter *)

Import BLE.

Lemma string_argument (a : string) :
  truthy (Some a) || is_empty_string (Some a) = true.
Proof.
  cbn. destruct (String.eqb a EmptyString); reflexivity.
Qed.

(** With a string for [address] the loop looks at names only. *)
Lemma find_device_by_name (a : string) (devices : list Peripheral) :
  find_device (Some a) devices
  = match find (fun dev => contains DEVICE_NAME (identifier dev)) devices with
    | Some dev => Bound (Some dev)
    | None => Bound None
    end.
Proof.
  induction devices as [|dev devices IH].
  - reflexivity.
  - cbn [find_device find]. rewrite string_argument.
    destruct (contains DEVICE_NAME (identifier dev)); [reflexivity|exact IH].
Qed.

(** X15: when [address] is a string, [connect] makes no use of it: any two
    strings, empty or not, give the same result, the choice being made on
    the advertised name alone. *)
Theorem connect_ignores_address (w : World) (a1 a2 : string) :
  connect w (Some a1) = connect w (Some a2).
Proof.
  unfold connect.
  destruct (get_adapters w) as [|adapter others]; [reflexivity|].
  now rewrite !find_device_by_name.
Qed.

Lemma find_first (A : Type) (f : A -> bool) (l : list A) (x : A) :
  find f l = Some x ->
  exists pre post,
    l = pre ++ x :: post /\ Forall (fun y => f y = false) pre /\ f x = true.
Proof.
  induction l as [|y l IH]; intros H.
  - discriminate H.
  - cbn [find] in H. destruct (f y) eqn:Hy.
    + injection H as ->. now exists [], l.
    + destruct (IH H) as (pre & post & -> & Hpre & Hx).
      exists (y :: pre), post. repeat split; [now constructor|exact Hx].
Qed.

(** X16: a device returned by [connect] is, among the peripherals the
    first adapter's scan found, the first whose name contains ["121GW"];
    its [connect()] did not raise and it reports being connected; and the
    [address] given was a string. *)
Theorem connect_returns_first_match (w : World) (address : option string)
    (d : Peripheral) :
  connect w address = Bound (Some d) ->
  exists adapter others pre post,
    get_adapters w = adapter :: others /\
    scan_get_results adapter = pre ++ d :: post /\
    Forall (fun p => contains DEVICE_NAME (identifier p) = false) pre /\
    contains DEVICE_NAME (identifier d) = true /\
    connect_raises d = false /\
    is_connected d = true /\
    address <> None.
Proof.
  unfold connect. intros H.
  destruct (get_adapters w) as [|adapter others]; [discriminate H|].
  destruct address as [a|].
  - rewrite find_device_by_name in H.
    destruct (find _ (scan_get_results adapter)) as [dev|] eqn:E; [|discriminate H].
    destruct (connect_raises dev) eqn:Hr; [discriminate H|].
    destruct (is_connected dev) eqn:Hc; [|discriminate H].
    injection H as ->.
    destruct (find_first _ _ _ _ E) as (pre & post & Hscan & Hpre & Hd).
    exists adapter, others, pre, post.
    repeat split; try assumption. discriminate.
  - destruct (scan_get_results adapter) as [|dev devs]; discriminate H.
Qed.

(** X17: the first peripheral whose name contains ["121GW"] decides: if
    its [connect()] raises or it does not report being connected,
    [connect] returns [None] without trying any later peripheral, and if
    no name matches it returns [None]. *)
Theorem connect_first_match_decides (w : World) (a : string) (adapter : Adapter)
    (others : list Adapter) :
  get_adapters w = adapter :: others ->
  (forall pre d post,
     scan_get_results adapter = pre ++ d :: post ->
     Forall (fun p => contains DEVICE_NAME (identifier p) = false) pre ->
     contains DEVICE_NAME (identifier d) = true ->
     connect w (Some a)
     = if connect_raises d || negb (is_connected d) then Bound None
       else Bound (Some d)) /\
  (Forall (fun p => contains DEVICE_NAME (identifier p) = false)
     (scan_get_results adapter) ->
   connect w (Some a) = Bound None).
Proof.
  intros Hw. unfold connect. rewrite Hw, find_device_by_name. split.
  - intros pre d post Hscan Hpre Hd. rewrite Hscan.
    assert (E : find (fun dev => contains DEVICE_NAME (identifier dev))
                  (pre ++ d :: post) = Some d).
    { clear Hscan. induction Hpre as [|p pre Hp _ IH]; cbn [app find].
      - now rewrite Hd.
      - now rewrite Hp. }
    rewrite E. destruct (connect_raises d), (is_connected d); reflexivity.
  - intros Hnone.
    assert (E : find (fun dev => contains DEVICE_NAME (identifier dev))
                  (scan_get_results adapter) = None).
    { induction Hnone as [|p l Hp _ IH]; cbn [find]; [reflexivity|].
      now rewrite Hp. }
    now rewrite E.
Qed.

(** X18: called with [None] for [address], [connect] raises [TypeError]
    as soon as the scan has found any peripheral at all, and returns
    [None] when the scan found nothing. *)
Theorem connect_without_address (w : World) (adapter : Adapter)
    (others : list Adapter) :
  get_adapters w = adapter :: others ->
  connect w None
  = match scan_get_results adapter with
    | [] => Bound None
    | _ :: _ => TypeError
    end.
Proof.
  intros Hw. unfold connect. rewrite Hw.
  destruct (scan_get_results adapter) as [|dev devs]; reflexivity.
Qed.

Lemma connect_returns_first_match_witness :
  exists adapter others pre post,
    get_adapters Bench.one_meter = adapter :: others /\
    scan_get_results adapter = pre ++ Bench.meter_free :: post /\
    Forall (fun p => contains DEVICE_NAME (identifier p) = false) pre /\
    contains DEVICE_NAME (identifier Bench.meter_free) = true /\
    connect_raises Bench.meter_free = false /\
    is_connected Bench.meter_free = true /\
    Some "aa:bb:cc:00:11:22"%string <> None.
Proof.
  exact (connect_returns_first_match Bench.one_meter (Some "aa:bb:cc:00:11:22"%string)
           Bench.meter_free eq_refl).
Defined.

Lemma connect_first_match_decides_witness :
  connect Bench.two_meters (Some "88:6b:0f:00:00:01"%string) = Bound None /\
  connect Bench.one_meter (Some "88:6b:0f:00:00:01"%string)
  = Bound (Some Bench.meter_free).
Proof.
  split.
  - apply (proj1 (connect_first_match_decides Bench.two_meters "88:6b:0f:00:00:01"
                    (mkAdapter [Bench.keyboard; Bench.meter_busy; Bench.meter_free]) []
                    eq_refl)
             [Bench.keyboard] Bench.meter_busy [Bench.meter_free]);
      [reflexivity|repeat constructor|reflexivity].
  - apply (proj1 (connect_first_match_decides Bench.one_meter "88:6b:0f:00:00:01"
                    (mkAdapter [Bench.keyboard; Bench.meter_free]) [mkAdapter []]
                    eq_refl)
             [Bench.keyboard] Bench.meter_free []);
      [reflexivity|repeat constructor|reflexivity].
Defined.

Lemma connect_without_address_witness :
  connect Bench.one_meter None = TypeError /\
  connect (mkWorld [mkAdapter []]) None = Bound None.
Proof.
  split.
  - exact (connect_without_address Bench.one_meter
             (mkAdapter [Bench.keyboard; Bench.meter_free]) [mkAdapter []] eq_refl).
  - exact (connect_without_address (mkWorld [mkAdapter []]) (mkAdapter []) [] eq_refl).
Defined.
